(** * clawbot: memory backends, embedding worker and HTTP channel

    A shallow embedding of the parts of the repository that the checked
    properties talk about:

    - [nanobot/agent/memory.py]        the file memory store,
    - [nanobot/agent/memory_pg.py]     the relational memory store,
    - [baibo/agent/embedding.py]       the embedding service,
    - [baibo/agent/memory_worker.py]   the embedding worker,
    - [baibo/agent/memory_ingest.py]   the conversation ingestors,
    - [nanobot/agent/memory_base.py]   the backend protocol,
    - [nanobot/agent/tools/memory.py]  the memory tools,
    - [nanobot/agent/memory_factory.py] the backend factory,
    - [nanobot/channels/openapi.py]    the OpenAI-compatible HTTP channel.

    Python [str] is [string]; [int] is [Z]; a [dict] used as a map is a
    [gmap]; a dict whose insertion order is observed is an association
    list.  Calls that leave the process (the embedding API, the clock,
    uuid4, json.dumps) are arguments of the functions that make them. *)

From Stdlib Require Import ZArith String Ascii List Bool Lia.
From stdpp Require Import base option list gmap strings pretty.

Local Open Scope string_scope.
Local Open Scope Z_scope.
Local Open Scope list_scope.

(** ** Python built-ins used by the sources *)

Module Py.

(** [sep.join(parts)] *)
Definition join (sep : string) (parts : list string) : string :=
  String.concat sep parts.

(** [s.startswith(p)] *)
Definition startswith (s p : string) : bool := String.prefix p s.

(** [s[n:]] for a non-negative literal [n] *)
Fixpoint slice_from (n : nat) (s : string) : string :=
  match n, s with
  | O, _ => s
  | S _, EmptyString => EmptyString
  | S n', String _ s' => slice_from n' s'
  end.

(** [s[:n]] for a non-negative literal [n] *)
Fixpoint slice_to (n : nat) (s : string) : string :=
  match n, s with
  | O, _ => EmptyString
  | S _, EmptyString => EmptyString
  | S n', String c s' => String c (slice_to n' s')
  end.


(** [x in xs] on a list of strings *)
Definition contains (xs : list string) (x : string) : bool :=
  bool_decide (x ∈ xs).

(** [range(n)]: empty when [n <= 0] *)
Definition range (n : Z) : list Z := seqZ 0 n.

(** [str(n)] for an [int] *)
Definition str_int (n : Z) : string := pretty n.

(** truth value of a [str]: the empty string is falsy *)
Definition truthy_str (s : string) : bool :=
  match s with EmptyString => false | _ => true end.

(** The characters ["\r"], ["\n"] and ["\x00"] *)
Definition CR : ascii := "013".
Definition LF : ascii := "010".
Definition NUL : ascii := "000".

(** [c in s] for a character [c] *)
Fixpoint has_char (c : ascii) (s : string) : bool :=
  match s with
  | EmptyString => false
  | String d s' => Ascii.eqb d c || has_char c s'
  end.

(** What text mode does to the text of a file on reading (universal
    newlines, the default of [open] and of [Path.read_text]): every
    ["\r\n"] and every other ["\r"] becomes ["\n"]. *)
Fixpoint universal_newlines (s : string) : string :=
  match s with
  | EmptyString => EmptyString
  | String c s' =>
      if Ascii.eqb c CR
      then String LF
             match s' with
             | String c' s'' =>
                 if Ascii.eqb c' LF then universal_newlines s''
                 else universal_newlines s'
             | EmptyString => EmptyString
             end
      else String c (universal_newlines s')
  end.

End Py.

(** ** Calendar dates

    A [datetime.date] is its proleptic Gregorian ordinal
    ([date.toordinal()]), so [d - timedelta(days=i)] is [d - i]. *)

Module Date.

Definition date := Z.

Definition sub_days (d : date) (i : Z) : date := d - i.

(** Year, month and day of an ordinal (day 1 is 0001-01-01). *)
Definition civil (d : date) : Z * Z * Z :=
  let z := d - 719163 + 719468 in
  let era := z / 146097 in
  let doe := z - era * 146097 in
  let yoe := (doe - doe / 1460 + doe / 36524 - doe / 146096) / 365 in
  let doy := doe - (365 * yoe + yoe / 4 - yoe / 100) in
  let mp := (5 * doy + 2) / 153 in
  let dd := doy - (153 * mp + 2) / 5 + 1 in
  let mm := if mp <? 10 then mp + 3 else mp - 9 in
  let yy := yoe + era * 400 + (if mm <=? 2 then 1 else 0) in
  (yy, mm, dd).

Fixpoint zeros (n : nat) : string :=
  match n with O => "" | S n' => String "0" (zeros n') end.

(** [%04d] / [%02d] of a non-negative number *)
Definition pad (width : nat) (n : Z) : string :=
  let s := pretty n in
  zeros (width - String.length s) +:+ s.

(** [str(d)] and [d.strftime("%Y-%m-%d")] *)
Definition isoformat (d : date) : string :=
  let '(yy, mm, dd) := civil d in
  pad 4 yy +:+ "-" +:+ pad 2 mm +:+ "-" +:+ pad 2 dd.

End Date.

(** Modelled from the spec: [nanobot.utils.helpers.today_date] is not among
    the sources; the spec names the daily file [memory/YYYY-MM-DD.md], one
    per calendar day in local time, so [today_date()] is the ISO form of
    the current day. *)
Definition today_date (today : Date.date) : string := Date.isoformat today.

(** ** File memory store ([nanobot/agent/memory.py])

    The directory [<workspace>/memory] is a finite map from file names to
    the text the files hold; [Path.exists] is membership.  The files are
    written and read in text mode: [write_text] stores the text as it is
    given (on a POSIX system, where the line separator is ["\n"]) and
    [read_text] returns the stored text with universal newlines.  The
    current day is an argument. *)

Module MemoryStore.

Definition memory_file : string := "MEMORY.md".

(** [path.read_text(encoding="utf-8")] of an existing file; [None] when
    [path.exists()] is false *)
Definition read_text (fs : gmap string string) (path : string)
    : option string :=
  Py.universal_newlines <$> fs !! path.

(** [path.write_text(content, encoding="utf-8")] *)
Definition write_text (path content : string) (fs : gmap string string)
    : gmap string string :=
  <[path := content]> fs.

Definition get_today_file (today : Date.date) : string :=
  today_date today +:+ ".md".

Definition read_today (today : Date.date) (fs : gmap string string) : string :=
  match read_text fs (get_today_file today) with
  | Some text => text
  | None => ""
  end.

Definition append_today (today : Date.date) (content : string)
    (fs : gmap string string) : gmap string string :=
  let today_file := get_today_file today in
  let content' :=
    match read_text fs today_file with
    | Some existing => existing +:+ "
" +:+ content
    | None =>
        let header := "# " +:+ today_date today +:+ "

" in
        header +:+ content
    end in
  write_text today_file content' fs.

Definition read_long_term (fs : gmap string string) : string :=
  match read_text fs memory_file with
  | Some text => text
  | None => ""
  end.

Definition write_long_term (content : string)
    (fs : gmap string string) : gmap string string :=
  write_text memory_file content fs.

(** The loop body of [get_recent_memories] for day offset [i]. *)
Definition recent_file (today : Date.date) (fs : gmap string string)
    (i : Z) : list string :=
  let date := Date.sub_days today i in
  let date_str := Date.isoformat date in
  let file_path := date_str +:+ ".md" in
  match read_text fs file_path with
  | Some content => [content]
  | None => []
  end.

Definition get_recent_memories (today : Date.date) (days : Z)
    (fs : gmap string string) : string :=
  let memories := flat_map (recent_file today fs) (Py.range days) in
  Py.join "

---

" memories.

Definition get_memory_context (today : Date.date)
    (fs : gmap string string) : string :=
  let long_term := read_long_term fs in
  let parts1 :=
    if Py.truthy_str long_term
    then ["## Long-term Memory
" +:+ long_term] else [] in
  let today_notes := read_today today fs in
  let parts2 :=
    if Py.truthy_str today_notes
    then parts1 ++ ["## Today's Notes
" +:+ today_notes] else parts1 in
  match parts2 with
  | [] => ""
  | _ => Py.join "

" parts2
  end.

End MemoryStore.

(** ** The database: tables, sequences and the pgmq queue

    One PostgreSQL database as data.  The three table families keep the
    columns the modelled statements read or write ([created_at] and
    [updated_at] are never read back and are left out).  The [embedding]
    column holds the vector literal the client sent, or [None] for NULL.
    A statement on a missing table, or on a table of another family (a
    column it names does not exist there), raises: the operation is
    [None] and, as with [async with pool.connection()], nothing of the
    block is committed. *)

Module Db.

Record DailyRow := {
  d_id : Z;
  d_entry_date : Date.date;
  d_content : string;
  d_embedding : option string;
}.

Record LongTermRow := {
  lt_id : Z;
  lt_content : string;
  lt_embedding : option string;
  lt_version : Z;
}.

Record ConversationRow := {
  c_id : Z;
  c_session_key : string;
  c_role : string;
  c_content : string;
  c_embedding : option string;
}.

(** A table: the dimension of its [embedding vector(dim)] column, its rows
    and its BIGSERIAL sequence (the last value handed out). *)
Inductive Table :=
| Daily (dim : Z) (rows : list DailyRow) (last_id : Z)
| LongTerm (dim : Z) (rows : list LongTermRow) (last_id : Z)
| Conversation (dim : Z) (rows : list ConversationRow) (last_id : Z).

(** The [vector(dim)] type of the embedding column. *)
Definition table_dim (t : Table) : Z :=
  match t with
  | Daily dim _ _ | LongTerm dim _ _ | Conversation dim _ _ => dim
  end.

(** The JSON object carried by a queue message. *)
Record Message := {
  m_table : string;
  m_id : Z;
  m_content : string;
  m_dimensions : Z;
}.

(** A pgmq queue entry: [vt] is the time from which it is visible. *)
Record QueueEntry := {
  q_msg_id : Z;
  q_vt : Z;
  q_message : Message;
}.

Record Database := {
  tables : gmap string Table;
  queue : list QueueEntry;
  queue_last_id : Z;
  archive : list QueueEntry;
}.

Definition empty : Database :=
  {| tables := ∅; queue := []; queue_last_id := 0; archive := [] |}.

(** The database clock: [now] in seconds, [today] for CURRENT_DATE (the
    process and the database are taken to agree on the calendar day). *)
Record Clock := { now : Z; today : Date.date }.

Definition with_tables (db : Database) (ts : gmap string Table) : Database :=
  {| tables := ts; queue := queue db;
     queue_last_id := queue_last_id db; archive := archive db |}.

(** [CREATE TABLE IF NOT EXISTS] *)
Definition create_table_if_not_exists (name : string) (t : Table)
    (db : Database) : Database :=
  match tables db !! name with
  | Some _ => db
  | None => with_tables db (<[name := t]> (tables db))
  end.

(** [ORDER BY]: a stable insertion sort by a "comes no later than" test. *)
Fixpoint insert_by {A} (le : A → A → bool) (x : A) (l : list A) : list A :=
  match l with
  | [] => [x]
  | y :: l' => if le x y then x :: y :: l' else y :: insert_by le x l'
  end.

Fixpoint order_by {A} (le : A → A → bool) (l : list A) : list A :=
  match l with
  | [] => []
  | x :: l' => insert_by le x (order_by le l')
  end.

(** [SELECT pgmq.send(queue, msg)]: a new entry, visible at once. *)
Definition pgmq_send (clk : Clock) (msg : Message) (db : Database) : Database :=
  let mid := queue_last_id db + 1 in
  {| tables := tables db;
     queue := queue db ++ [ {| q_msg_id := mid; q_vt := now clk; q_message := msg |} ];
     queue_last_id := mid;
     archive := archive db |}.

(** The first visible entry gets its [vt] pushed [vt_secs] ahead. *)
Fixpoint read_first (vt_secs t : Z) (q : list QueueEntry)
    : option QueueEntry * list QueueEntry :=
  match q with
  | [] => (None, [])
  | e :: q' =>
      if q_vt e <=? t
      then (Some e,
            {| q_msg_id := q_msg_id e; q_vt := t + vt_secs;
               q_message := q_message e |} :: q')
      else let '(r, q'') := read_first vt_secs t q' in (r, e :: q'')
  end.

(** [SELECT msg_id, message FROM pgmq.read(queue, vt, 1)] *)
Definition pgmq_read (vt_secs : Z) (clk : Clock) (db : Database)
    : option QueueEntry * Database :=
  let '(r, q) := read_first vt_secs (now clk) (queue db) in
  (r, {| tables := tables db; queue := q;
         queue_last_id := queue_last_id db; archive := archive db |}).

(** [SELECT pgmq.archive(queue, msg_id)] *)
Definition pgmq_archive (mid : Z) (db : Database) : Database :=
  {| tables := tables db;
     queue := filter (λ e, q_msg_id e ≠ mid) (queue db);
     queue_last_id := queue_last_id db;
     archive := archive db ++ filter (λ e, q_msg_id e = mid) (queue db) |}.

Definition set_daily (vec : string) (rid : Z) (r : DailyRow) : DailyRow :=
  if d_id r =? rid
  then {| d_id := d_id r; d_entry_date := d_entry_date r;
          d_content := d_content r; d_embedding := Some vec |}
  else r.

Definition set_long_term (vec : string) (rid : Z) (r : LongTermRow) : LongTermRow :=
  if lt_id r =? rid
  then {| lt_id := lt_id r; lt_content := lt_content r;
          lt_embedding := Some vec; lt_version := lt_version r |}
  else r.

Definition set_conversation (vec : string) (rid : Z) (r : ConversationRow)
    : ConversationRow :=
  if c_id r =? rid
  then {| c_id := c_id r; c_session_key := c_session_key r;
          c_role := c_role r; c_content := c_content r;
          c_embedding := Some vec |}
  else r.

Definition update_table (vec : string) (rid : Z) (t : Table) : Table :=
  match t with
  | Daily dim rows n => Daily dim (set_daily vec rid <$> rows) n
  | LongTerm dim rows n => LongTerm dim (set_long_term vec rid <$> rows) n
  | Conversation dim rows n =>
      Conversation dim (set_conversation vec rid <$> rows) n
  end.

(** A [TEXT] value cannot hold the character NUL: the client refuses
    the parameter and the statement raises. *)
Definition text_ok (s : string) : bool := negb (Py.has_char Py.NUL s).

(** The largest [INT]: arithmetic beyond it raises. *)
Definition INT_MAX : Z := 2147483647.

(** [UPDATE <table> SET embedding = <vec>::vector, updated_at = now()
    WHERE id = <rid>].  [pgvector_in] is the input function of the
    [vector] type: the number of components of a literal it accepts, or
    [None] when it raises (a malformed literal, a component that is not a
    finite number of the range).  The statement raises when the table is
    missing, when the table is a long-term table (it has no column
    [updated_at]), when the literal is refused and when the vector has
    not the dimension of the column. *)
Definition update_embedding (pgvector_in : string → option Z)
    (name vec : string) (rid : Z) (db : Database) : option Database :=
  match tables db !! name with
  | Some (LongTerm _ _ _) => None
  | Some t =>
      match pgvector_in vec with
      | Some n =>
          if n =? table_dim t
          then Some (with_tables db (<[name := update_table vec rid t]> (tables db)))
          else None
      | None => None
      end
  | None => None
  end.

(** The same entry with another [dimensions] field, and a database whose
    queue messages all carry [dimensions = d]. *)
Definition with_dimensions (d : Z) (e : QueueEntry) : QueueEntry :=
  {| q_msg_id := q_msg_id e; q_vt := q_vt e;
     q_message :=
       {| m_table := m_table (q_message e); m_id := m_id (q_message e);
          m_content := m_content (q_message e); m_dimensions := d |} |}.

Definition relabel (d : Z) (db : Database) : Database :=
  {| tables := tables db;
     queue := with_dimensions d <$> queue db;
     queue_last_id := queue_last_id db;
     archive := with_dimensions d <$> archive db |}.

(** Every id of a table was handed out by its sequence. *)
Definition table_ok (t : Table) : Prop :=
  match t with
  | Daily dim rows last => Forall (λ r, d_id r ≤ last) rows
  | LongTerm dim rows last => Forall (λ r, lt_id r ≤ last) rows
  | Conversation dim rows last => Forall (λ r, c_id r ≤ last) rows
  end.

Definition sequences_ok (db : Database) : Prop :=
  ∀ name t, tables db !! name = Some t → table_ok t.

(** An entry is visible at time [t] (pgmq reads only such entries). *)
Definition visible (t : Z) (e : QueueEntry) : Prop := q_vt e ≤ t.

(** One committed UPDATE of an embedding, or none: what a poll of the
    embedding worker can do to the tables. *)
Definition embedding_step (ts ts' : gmap string Table) : Prop :=
  ts' = ts ∨
  ∃ name vec rid t,
    ts !! name = Some t ∧ ts' = <[name := update_table vec rid t]> ts.

End Db.

(** ** Embedding service ([baibo/agent/embedding.py])

    [litellm.aembedding] is the argument [aembedding]: given the service
    and the inputs it answers with one vector per input, or raises
    ([None]).  [float] is the type of vector components. *)

Module EmbeddingService.

Record t := {
  model : string;
  dimensions : Z;
  api_base : option string;
  api_key : option string;
}.

Section Calls.
Context {float : Type}.
Variable aembedding : t → list string → option (list (list float)).

(** [response.data[0]["embedding"]] *)
Definition embed (self : t) (text : string) : option (list float) :=
  data ← aembedding self [text];
  head data.

Definition embed_batch (self : t) (texts : list string)
    : option (list (list float)) :=
  match texts with
  | [] => Some []
  | _ => aembedding self texts
  end.
End Calls.

End EmbeddingService.

(** ** Relational memory store ([nanobot/agent/memory_pg.py]) *)

Module PostgresMemoryStore.
Import Db.

Record t := {
  dimensions : Z;
  semantic_search_limit : Z;
  (** [None]: the attribute was never set, or was set to [None] *)
  embedding_service : option EmbeddingService.t;
}.

Definition daily_table (self : t) : string :=
  "memory_daily_dim" +:+ Py.str_int (dimensions self).
Definition long_term_table (self : t) : string :=
  "memory_long_term_dim" +:+ Py.str_int (dimensions self).
Definition conversation_table (self : t) : string :=
  "memory_conversation_dim" +:+ Py.str_int (dimensions self).

(** The three [CREATE TABLE IF NOT EXISTS] of [_ensure_schema]. *)
Definition _ensure_schema (self : t) (db : Database) : Database :=
  let dim := dimensions self in
  create_table_if_not_exists (conversation_table self) (Conversation dim [] 0)
    (create_table_if_not_exists (long_term_table self) (LongTerm dim [] 0)
       (create_table_if_not_exists (daily_table self) (Daily dim [] 0) db)).

(** The three tables of the store exist, each of its family. *)
Definition initialized (self : t) (db : Database) : Prop :=
  (∃ dim rows last,
     tables db !! daily_table self = Some (Daily dim rows last)) ∧
  (∃ dim rows last,
     tables db !! long_term_table self = Some (LongTerm dim rows last)) ∧
  (∃ dim rows last,
     tables db !! conversation_table self = Some (Conversation dim rows last)).

Definition read_today (self : t) (clk : Clock) (db : Database) : option string :=
  match tables db !! daily_table self with
  | Some (Daily dim rows _) =>
      let results :=
        order_by (λ a b, d_id a <=? d_id b)
          (filter (λ r, d_entry_date r = today clk) rows) in
      match results with
      | [] => Some ""
      | _ => Some (Py.join "
" (d_content <$> results))
      end
  | _ => None
  end.

(** The INSERT raises for a content that is no [TEXT] value; the
    sequences are taken not to run out. *)
Definition append_today (self : t) (clk : Clock) (content : string)
    (db : Database) : option Database :=
  match tables db !! daily_table self with
  | Some (Daily dim rows last) =>
      if text_ok content
      then
        let record_id := last + 1 in
        let row := {| d_id := record_id; d_entry_date := today clk;
                      d_content := content; d_embedding := None |} in
        let db1 := with_tables db
          (<[daily_table self := Daily dim (rows ++ [row]) record_id]>
             (tables db)) in
        let msg := {| m_table := daily_table self; m_id := record_id;
                      m_content := content; m_dimensions := dimensions self |} in
        Some (pgmq_send clk msg db1)
      else None
  | _ => None
  end.

Definition read_long_term (self : t) (db : Database) : option string :=
  match tables db !! long_term_table self with
  | Some (LongTerm dim rows _) =>
      match order_by (λ a b, lt_version b <=? lt_version a) rows with
      | result :: _ => Some (lt_content result)
      | [] => Some ""
      end
  | _ => None
  end.

(** [COALESCE(MAX(version), 0)] *)
Definition max_version (rows : list LongTermRow) : Z :=
  match rows with
  | [] => 0
  | r :: rows' => foldr (λ r' m, Z.max (lt_version r') m) (lt_version r) rows'
  end.

(** [COALESCE(MAX(version), 0) + 1] is [INT] arithmetic and raises
    beyond [INT_MAX]; the INSERT raises for a content that is no [TEXT]
    value. *)
Definition write_long_term (self : t) (clk : Clock) (content : string)
    (db : Database) : option Database :=
  match tables db !! long_term_table self with
  | Some (LongTerm dim rows last) =>
      let next_version := max_version rows + 1 in
      if (next_version <=? INT_MAX) && text_ok content
      then
        let record_id := last + 1 in
        let row := {| lt_id := record_id; lt_content := content;
                      lt_embedding := None; lt_version := next_version |} in
        let db1 := with_tables db
          (<[long_term_table self := LongTerm dim (rows ++ [row]) record_id]>
             (tables db)) in
        let msg := {| m_table := long_term_table self; m_id := record_id;
                      m_content := content; m_dimensions := dimensions self |} in
        Some (pgmq_send clk msg db1)
      else None
  | _ => None
  end.

(** [by_date.setdefault(key, []).append(content)] on an insertion-ordered
    dict *)
Fixpoint setdefault_append (key content : string)
    (by_date : list (string * list string)) : list (string * list string) :=
  match by_date with
  | [] => [(key, [content])]
  | (k, entries) :: rest =>
      if String.eqb k key
      then (k, entries ++ [content]) :: rest
      else (k, entries) :: setdefault_append key content rest
  end.

Definition get_recent_memories (self : t) (clk : Clock) (days : Z)
    (db : Database) : option string :=
  let cutoff := Date.sub_days (today clk) days in
  match tables db !! daily_table self with
  | Some (Daily dim rows _) =>
      let results :=
        order_by (λ a b, (d_entry_date b <? d_entry_date a)
                         || ((d_entry_date a =? d_entry_date b)
                             && (d_id a <=? d_id b)))
          (filter (λ r, cutoff ≤ d_entry_date r) rows) in
      match results with
      | [] => Some ""
      | _ =>
          let by_date :=
            fold_left (λ acc r,
                setdefault_append (Date.isoformat (d_entry_date r))
                  (d_content r) acc)
              results [] in
          let parts :=
            (λ '(date_str, entries),
               "# " +:+ date_str +:+ "

" +:+ Py.join "
" entries) <$> by_date in
          Some (Py.join "

---

" parts)
      end
  | _ => None
  end.

Definition get_memory_context (self : t) (clk : Clock) (db : Database)
    : option string :=
  long_term ← read_long_term self db;
  let parts1 :=
    if Py.truthy_str long_term
    then ["## Long-term Memory
" +:+ long_term] else [] in
  today_notes ← read_today self clk db;
  let parts2 :=
    if Py.truthy_str today_notes
    then parts1 ++ ["## Today's Notes
" +:+ today_notes] else parts1 in
  match parts2 with
  | [] => Some ""
  | _ => Some (Py.join "

" parts2)
  end.

(** *** Semantic search (postgres-only)

    The SQL routine [memory_search_dim<N>] is the argument [search_func]:
    given the vector literal and the limit it answers with the rows
    [(source, source_id, content, entry_date, similarity)], or raises. *)

Record SearchRow {float : Type} := {
  sr_source : string;
  sr_source_id : Z;
  sr_content : string;
  sr_entry_date : option Date.date;
  sr_similarity : float;
}.
Arguments SearchRow : clear implicits.

(** One element of the list [semantic_search] returns. *)
Record SearchResult {float : Type} := {
  source : string;
  source_id : Z;
  content : string;
  entry_date : option string;
  similarity : float;
}.
Arguments SearchResult : clear implicits.

Section Semantic.
Context {float : Type}.
Variable aembedding :
  EmbeddingService.t → list string → option (list (list float)).
Variable search_func :
  string → Z → Database → option (list (SearchRow float)).
(** [str(v)] and [f"{v:.2f}"] on a float *)
Variable str_float : float → string.
Variable format_2f : float → string.

Definition vec_literal (v : list float) : string :=
  "[" +:+ Py.join "," (str_float <$> v) +:+ "]".

Definition semantic_search (self : t) (query_embedding : list float)
    (limit : option Z) (db : Database)
    : option (list (SearchResult float)) :=
  let limit' :=
    match limit with
    | Some l => if l =? 0 then semantic_search_limit self else l
    | None => semantic_search_limit self
    end in
  match search_func (vec_literal query_embedding) limit' db with
  | None => None
  | Some results =>
      Some ((λ r : SearchRow float,
               {| source := sr_source r;
                  source_id := sr_source_id r;
                  content := sr_content r;
                  entry_date := Date.isoformat <$> sr_entry_date r;
                  similarity := sr_similarity r |}) <$> results)
  end.

Definition semantic_line (r : SearchResult float) : string :=
  let date_info :=
    match entry_date r with
    | Some d => if Py.truthy_str d then " (" +:+ d +:+ ")" else ""
    | None => ""
    end in
  let sim := format_2f (similarity r) in
  "- [" +:+ source r +:+ date_info +:+ " sim=" +:+ sim +:+ "] "
    +:+ content r.

Definition get_memory_context_semantic (self : t) (clk : Clock)
    (query : string) (db : Database) : option string :=
  match embedding_service self with
  | None => get_memory_context self clk db
  | Some service =>
      match
        match EmbeddingService.embed aembedding service query with
        | None => None
        | Some query_embedding =>
            semantic_search self query_embedding None db
        end
      with
      | None => get_memory_context self clk db
      | Some [] => get_memory_context self clk db
      | Some results =>
          long_term ← read_long_term self db;
          let parts1 :=
            if Py.truthy_str long_term
            then ["## Long-term Memory
" +:+ long_term] else [] in
          let semantic_parts := semantic_line <$> results in
          let parts2 :=
            match semantic_parts with
            | [] => parts1
            | _ => parts1 ++ ["## Relevant Memories (semantic)
" +:+ Py.join "
" semantic_parts]
            end in
          today_notes ← read_today self clk db;
          let parts3 :=
            if Py.truthy_str today_notes
            then parts2 ++ ["## Today's Notes
" +:+ today_notes] else parts2 in
          match parts3 with
          | [] => Some ""
          | _ => Some (Py.join "

" parts3)
          end
      end
  end.
End Semantic.


End PostgresMemoryStore.

(** ** Embedding worker ([baibo/agent/memory_worker.py])

    [_poll_once] returns its result, the database it leaves and the calls
    it made, in order.  An exception inside the [try] gives [false]; the
    [async with] block of the UPDATE and the archive commits both or
    neither. *)

Module MemoryEmbeddingWorker.
Import Db.

Definition QUEUE_NAME : string := "memory_embedding".
Definition VISIBILITY_TIMEOUT : Z := 30.

Record t := {
  embedding : EmbeddingService.t;
}.

Inductive Call :=
| PgmqRead (queue_name : string) (vt_secs : Z)
| Embed (text : string)
| Update (table vec : string) (record_id : Z)
| PgmqArchive (queue_name : string) (msg_id : Z).

Section Poll.
Context {float : Type}.
Variable aembedding :
  EmbeddingService.t → list string → option (list (list float)).
Variable str_float : float → string.
(** the input function of the [vector] type, see [Db.update_embedding] *)
Variable pgvector_in : string → option Z.

Definition _poll_once (self : t) (clk : Clock) (db : Database)
    : bool * Database * list Call :=
  let '(result, db0) := pgmq_read VISIBILITY_TIMEOUT clk db in
  let calls0 := [PgmqRead QUEUE_NAME VISIBILITY_TIMEOUT] in
  match result with
  | None => (false, db0, calls0)
  | Some entry =>
      let msg_id := q_msg_id entry in
      let message := q_message entry in
      let table := m_table message in
      let record_id := m_id message in
      let content := m_content message in
      let calls1 := calls0 ++ [Embed content] in
      match EmbeddingService.embed aembedding (embedding self) content with
      | None => (false, db0, calls1)
      | Some embedding =>
          let vec_literal :=
            "[" +:+ Py.join "," (str_float <$> embedding) +:+ "]" in
          let calls2 := calls1 ++ [Update table vec_literal record_id] in
          match
            update_embedding pgvector_in table vec_literal record_id db0
          with
          | None => (false, db0, calls2)
          | Some db1 =>
              (true, pgmq_archive msg_id db1,
               calls2 ++ [PgmqArchive QUEUE_NAME msg_id])
          end
      end
  end.
End Poll.

(** A finite run of the poll loop [_run]: one [_poll_once] per tick, each
    tick with the clock and the answers of the embedding API at that
    time. *)
Definition _run {float : Type} (str_float : float → string)
    (pgvector_in : string → option Z) (self : t)
    (ticks : list (Clock *
                   (EmbeddingService.t → list string → option (list (list float)))))
    (db : Database) : Database :=
  fold_left (λ d tick,
               (_poll_once (snd tick) str_float pgvector_in self (fst tick) d).1.2)
    ticks db.

End MemoryEmbeddingWorker.


(** ** Bus events ([nanobot/bus/events.py]) *)

Record StreamChunk := {
  chunk_content : string;
  is_final : bool;
  finish_reason : option string;
}.

(** [stream_callback] is kept as the flag [wants_stream]: the callback
    itself is the function [OpenAPIChannel.stream_callback] below. *)
Record InboundMessage := {
  in_channel : string;
  in_sender_id : string;
  in_chat_id : string;
  in_content : string;
  wants_stream : bool;
}.

(** The property [InboundMessage.session_key]. *)
Definition session_key (m : InboundMessage) : string :=
  in_channel m +:+ ":" +:+ in_chat_id m.

Record OutboundMessage := {
  out_channel : string;
  out_chat_id : string;
  out_content : string;
}.

(** ** OpenAI-compatible HTTP channel ([nanobot/channels/openapi.py]) *)

Module OpenAPIChannel.

(** Decoded JSON, and the dicts the handlers build for [json_response]
    and [json.dumps]; an object keeps its keys in insertion order.  The
    handlers read no number of a request and write only integers, so
    numbers are the integers. *)
#[warnings="-register-all"]
Inductive json :=
| JNull
| JBool (b : bool)
| JInt (n : Z)
| JStr (s : string)
| JArr (items : list json)
| JObj (fields : list (string * json)).

(** [d.get(key)] on a dict *)
Fixpoint dict_get (fields : list (string * json)) (key : string) : option json :=
  match fields with
  | [] => None
  | (k, v) :: rest => if String.eqb k key then Some v else dict_get rest key
  end.

(** [v[key]] on a JSON value, [v[i]] on a list *)
Definition jfield (key : string) (v : json) : option json :=
  match v with JObj fields => dict_get fields key | _ => None end.
Definition jitem (i : nat) (v : json) : option json :=
  match v with JArr items => items !! i | _ => None end.

(** [v["choices"][0][key]] *)
Definition choice0 (key : string) (v : json) : option json :=
  match jfield "choices" v with
  | Some choices =>
      match jitem 0 choices with
      | Some choice => jfield key choice
      | None => None
      end
  | None => None
  end.

(** truth value of a decoded JSON value *)
Definition truthy (v : json) : bool :=
  match v with
  | JNull => false
  | JBool b => b
  | JInt n => negb (n =? 0)
  | JStr s => Py.truthy_str s
  | JArr items => match items with [] => false | _ => true end
  | JObj fields => match fields with [] => false | _ => true end
  end.

(** The fields of [OpenAPIConfig] (declared in [nanobot/config/schema.py],
    which is not among the sources) that the channel reads. *)
Record OpenAPIConfig := {
  api_keys : list string;
  timeout : Z;
  model_name : string;
}.

(** A request: its headers (names as the handler spells them) and its
    body, [None] when [request.json()] raises [JSONDecodeError]. *)
Record Request := {
  headers : list (string * string);
  body : option json;
}.

(** [request.headers.get(name, default)] *)
Fixpoint headers_get (hs : list (string * string)) (name default : string)
    : string :=
  match hs with
  | [] => default
  | (k, v) :: rest =>
      if String.eqb k name then v else headers_get rest name default
  end.

Inductive HttpResponse :=
| JsonResponse (status : Z) (data : json)
| StreamResponse (status : Z) (response_headers : list (string * string))
    (writes : list string).

(** An asyncio future holding a string. *)
Inductive Future := Pending | Done (result : string) | Cancelled.

Definition done (f : Future) : bool :=
  match f with Pending => false | _ => true end.

(** The channel: the futures it created (by identity), the dict
    [_pending_responses] from chat ids to futures, and what it published
    on the bus. *)
Record State := {
  futures : gmap nat Future;
  _pending_responses : gmap string nat;
  published : list InboundMessage;
}.

Definition initial : State :=
  {| futures := ∅; _pending_responses := ∅; published := [] |}.

Definition name : string := "openapi".

Definition _on_outbound (msg : OutboundMessage) (st : State) : State :=
  match _pending_responses st !! out_chat_id msg with
  | None => st
  | Some fut =>
      let pending' := delete (out_chat_id msg) (_pending_responses st) in
      match futures st !! fut with
      | Some Pending =>
          {| futures := <[fut := Done (out_content msg)]> (futures st);
             _pending_responses := pending';
             published := published st |}
      | _ =>
          {| futures := futures st;
             _pending_responses := pending';
             published := published st |}
      end
  end.

Definition send (msg : OutboundMessage) (st : State) : State :=
  _on_outbound msg st.

(** [stop]: cancel the futures still pending and clear the dict. *)
Definition stop (st : State) : State :=
  {| futures :=
       map_fold (λ _ fut fs,
           match fs !! fut with
           | Some Pending => <[fut := Cancelled]> fs
           | _ => fs
           end)
         (futures st) (_pending_responses st);
     _pending_responses := ∅;
     published := published st |}.

Definition _verify_api_key (config : OpenAPIConfig) (request : Request) : bool :=
  match api_keys config with
  | [] => true
  | _ =>
      let auth_header := headers_get (headers request) "Authorization" "" in
      if negb (Py.startswith auth_header "Bearer ")
      then false
      else
        let token := Py.slice_from 7 auth_header in
        Py.contains (api_keys config) token
  end.

Definition error_response (message type : string) (status : Z) : HttpResponse :=
  JsonResponse status
    (JObj [("error", JObj [("message", JStr message); ("type", JStr type)])]).

(** What reaches the channel while a handler is suspended. *)
Inductive Event :=
| Outbound (msg : OutboundMessage)
| Stop.

Definition deliver (e : Event) (st : State) : State :=
  match e with
  | Outbound msg => _on_outbound msg st
  | Stop => stop st
  end.

(** [await asyncio.wait_for(future, timeout)]: the events that arrive
    before the timeout are delivered until the future is done. *)
Fixpoint wait_for (fut : nat) (events : list Event) (st : State) : State :=
  match events with
  | [] => st
  | e :: rest =>
      match futures st !! fut with
      | Some Pending => wait_for fut rest (deliver e st)
      | _ => st
      end
  end.

(** Modelled from the spec: [BaseChannel._handle_message] is not among
    the sources; the spec has the handler publish an [InboundMessage]
    with the extracted text. *)
Definition _handle_message (sender_id chat_id content : string)
    (st : State) : State :=
  {| futures := futures st;
     _pending_responses := _pending_responses st;
     published := published st ++
       [ {| in_channel := name; in_sender_id := sender_id;
            in_chat_id := chat_id; in_content := content;
            wants_stream := false |} ] |}.

Definition len (s : string) : Z := Z.of_nat (String.length s).

(** [created] is [int(time.time())]; [events] is what arrives within
    [config.timeout] seconds of the wait. *)
Definition _handle_non_stream (config : OpenAPIConfig) (created : Z)
    (events : list Event) (request_id chat_id user content : string)
    (st : State) : HttpResponse * State :=
  (* a new object: no future the channel holds or refers to *)
  let future :=
    fresh (dom (futures st) ∪ map_img (_pending_responses st)) in
  let st1 :=
    {| futures := <[future := Pending]> (futures st);
       _pending_responses := <[chat_id := future]> (_pending_responses st);
       published := published st |} in
  let st2 := _handle_message user chat_id content st1 in
  let st3 := wait_for future events st2 in
  match futures st3 !! future with
  | Some (Done response_content) =>
      let response :=
        JObj [("id", JStr request_id);
              ("object", JStr "chat.completion");
              ("created", JInt created);
              ("model", JStr (model_name config));
              ("choices",
               JArr [JObj [("index", JInt 0);
                           ("message",
                            JObj [("role", JStr "assistant");
                                  ("content", JStr response_content)]);
                           ("finish_reason", JStr "stop")]]);
              ("usage",
               JObj [("prompt_tokens", JInt (len content / 4));
                     ("completion_tokens", JInt (len response_content / 4));
                     ("total_tokens",
                      JInt ((len content + len response_content) / 4))])] in
      (JsonResponse 200 response, st3)
  | Some Cancelled =>
      (error_response "Request cancelled" "cancelled_error" 499, st3)
  | _ =>
      (* TimeoutError: wait_for has cancelled the future *)
      (error_response "Request timeout" "timeout_error" 504,
       {| futures := <[future := Cancelled]> (futures st3);
          _pending_responses := delete chat_id (_pending_responses st3);
          published := published st3 |})
  end.

(** [stream_callback]: the chunk goes on the queue, followed by the
    termination signal [None] when it is final. *)
Definition stream_callback (chunk : StreamChunk)
    (chunk_queue : list (option StreamChunk)) : list (option StreamChunk) :=
  let q := chunk_queue ++ [Some chunk] in
  if is_final chunk then q ++ [None] else q.

Section Stream.
Variable json_dumps : json → string.

Definition sse_data (config : OpenAPIConfig) (created : Z)
    (request_id : string) (chunk : StreamChunk) : json :=
  let delta0 :=
    if Py.truthy_str (chunk_content chunk)
    then [("content", JStr (chunk_content chunk))] else [] in
  let '(delta, finish) :=
    if is_final chunk
    then ([],
          JStr match finish_reason chunk with
               | Some r => if Py.truthy_str r then r else "stop"
               | None => "stop"
               end)
    else (delta0, JNull) in
  JObj [("id", JStr request_id);
        ("object", JStr "chat.completion.chunk");
        ("created", JInt created);
        ("model", JStr (model_name config));
        ("choices",
         JArr [JObj [("index", JInt 0);
                     ("delta", JObj delta);
                     ("finish_reason", finish)]])].

Definition frame (data : string) : string := "data: " +:+ data +:+ "

".

(** The read loop: each [chunk_queue.get()] takes the next item; when
    nothing more arrives the wait times out. *)
Fixpoint stream_loop (config : OpenAPIConfig) (created : Z)
    (request_id : string) (chunk_queue : list (option StreamChunk))
    : list string :=
  match chunk_queue with
  | [] =>
      let error_data :=
        json_dumps
          (JObj [("error", JObj [("message", JStr "Stream timeout");
                                 ("type", JStr "timeout_error")])]) in
      [frame error_data]
  | None :: _ => []
  | Some chunk :: rest =>
      frame (json_dumps (sse_data config created request_id chunk))
        :: stream_loop config created request_id rest
  end.

(** [chunks] are the chunks the agent hands to the callback, each
    within [config.timeout] seconds of the wait for it. *)
Definition _handle_stream (config : OpenAPIConfig) (created : Z)
    (chunks : list StreamChunk) (request_id chat_id user content : string)
    (st : State) : HttpResponse * State :=
  let st1 :=
    {| futures := futures st;
       _pending_responses := _pending_responses st;
       published := published st ++
         [ {| in_channel := name; in_sender_id := user;
              in_chat_id := chat_id; in_content := content;
              wants_stream := true |} ] |} in
  let chunk_queue := fold_left (λ q c, stream_callback c q) chunks [] in
  let writes :=
    stream_loop config created request_id chunk_queue ++ ["data: [DONE]

"] in
  (StreamResponse 200
     [("Content-Type", "text/event-stream");
      ("Cache-Control", "no-cache");
      ("Connection", "keep-alive")]
     writes,
   st1).
End Stream.

(** What one call of [_handle_chat_completions] takes from outside:
    the clock, the two [uuid4().hex] strings, and what arrives while it
    is suspended (events for a buffered reply, chunks for a stream). *)
Record Env := {
  created : Z;
  uuid_request : string;
  uuid_chat : string;
  events : list Event;
  chunks : list StreamChunk;
}.

(** [v == s] for a decoded JSON value [v] (or a missing key) and a
    string literal [s] *)
Definition is_str (v : option json) (s : string) : bool :=
  match v with
  | Some (JStr x) => String.eqb x s
  | _ => false
  end.

(** [[p.get("text", "") for p in content if p.get("type") == "text"]],
    then checked for [join]: [None] when either raises. *)
Fixpoint text_parts (content : list json) : option (list string) :=
  match content with
  | [] => Some []
  | JObj p :: rest =>
      if is_str (dict_get p "type") "text"
      then match default (JStr "") (dict_get p "text") with
           | JStr text => cons text <$> text_parts rest
           | _ => None
           end
      else text_parts rest
  | _ => None
  end.

(** The loop over [reversed(messages)]: the content of the first message
    met whose role is "user"; [None] when the loop raises. *)
Fixpoint last_user_content (reversed_messages : list json) : option string :=
  match reversed_messages with
  | [] => Some ""
  | JObj msg :: rest =>
      if is_str (dict_get msg "role") "user"
      then match default (JStr "") (dict_get msg "content") with
           | JStr content => Some content
           | JArr content => Py.join "
" <$> text_parts content
           | _ => Some ""
           end
      else last_user_content rest
  | _ => None
  end.

Section Completions.
Variable json_dumps : json → string.
(** [BaseChannel.is_allowed] (not among the sources) and [str] on a
    decoded JSON value, as the f-string of [chat_id] applies it *)
Variable is_allowed : json → bool.
Variable str_json : json → string.

Definition user_str (user : json) : string :=
  match user with JStr u => u | _ => str_json user end.

(** [None]: an exception no [except] clause of the handler catches. *)
Definition _handle_chat_completions (config : OpenAPIConfig) (env : Env)
    (request : Request) (st : State) : option (HttpResponse * State) :=
  if negb (_verify_api_key config request)
  then Some (error_response "Invalid API key" "invalid_request_error" 401, st)
  else
    match body request with
    | None =>
        Some (error_response "Invalid JSON" "invalid_request_error" 400, st)
    | Some (JObj fields) =>
        let messages := default (JArr []) (dict_get fields "messages") in
        let stream := default (JBool false) (dict_get fields "stream") in
        let user := default (JStr "anonymous") (dict_get fields "user") in
        if negb (truthy messages)
        then Some (error_response "messages is required"
                     "invalid_request_error" 400, st)
        else
          match messages with
          | JArr items =>
              match last_user_content (rev items) with
              | None => None
              | Some user_content =>
                  if negb (Py.truthy_str user_content)
                  then Some (error_response "No user message found"
                               "invalid_request_error" 400, st)
                  else if negb (is_allowed user)
                  then Some (error_response "User not allowed"
                               "permission_error" 403, st)
                  else
                    let request_id :=
                      "chatcmpl-" +:+ Py.slice_to 24 (uuid_request env) in
                    let chat_id :=
                      user_str user +:+ ":" +:+ Py.slice_to 8 (uuid_chat env) in
                    if truthy stream
                    then Some (_handle_stream json_dumps config (created env)
                                 (chunks env) request_id chat_id
                                 (user_str user) user_content st)
                    else Some (_handle_non_stream config (created env)
                                 (events env) request_id chat_id
                                 (user_str user) user_content st)
              end
          | _ => None
          end
    | Some _ => None
    end.
End Completions.

End OpenAPIChannel.

(** ** Conversation ingestors ([baibo/agent/memory_ingest.py]) *)

Module NullIngestor.

(** [pass]: the backend, whatever its state is, stays as it was. *)
Definition ingest {S : Type} (session_key user_msg assistant_msg : string)
    (st : S) : S := st.

End NullIngestor.

Module ConversationIngestor.
Import Db.

Record t := { _store : PostgresMemoryStore.t }.

(** The body of the [for] loop for one [(role, content)]: nothing for an
    empty [content], else the [INSERT ... RETURNING id] and the
    [pgmq.send].  The INSERT raises when the table is missing and when
    one of its parameters is no [TEXT] value. *)
Definition ingest_role (self : t) (clk : Clock) (session_key : string)
    (role_content : string * string) (db : Database) : option Database :=
  let table := PostgresMemoryStore.conversation_table (_store self) in
  let dims := PostgresMemoryStore.dimensions (_store self) in
  let '(role, content) := role_content in
  if negb (Py.truthy_str content) then Some db
  else
    match tables db !! table with
    | Some (Conversation dim rows last) =>
        if text_ok session_key && text_ok role && text_ok content
        then
          let record_id := last + 1 in
          let row := {| c_id := record_id; c_session_key := session_key;
                        c_role := role; c_content := content;
                        c_embedding := None |} in
          let db1 := with_tables db
            (<[table := Conversation dim (rows ++ [row]) record_id]>
               (tables db)) in
          let msg := {| m_table := table; m_id := record_id;
                        m_content := role +:+ ": " +:+ content;
                        m_dimensions := dims |} in
          Some (pgmq_send clk msg db1)
        else None
    | _ => None
    end.

(** What a transaction that is rolled back leaves of the database
    [reached] inside it: the rows, the queue and the archive are those of
    [before]; the sequences are not rolled back, and stay where the
    transaction left them. *)
Definition rolled_back (table : string) (reached before : Database)
    : Database :=
  {| tables :=
       match tables before !! table, tables reached !! table with
       | Some (Conversation dim rows _), Some (Conversation _ _ last) =>
           <[table := Conversation dim rows last]> (tables before)
       | _, _ => tables before
       end;
     queue := queue before;
     queue_last_id := queue_last_id reached;
     archive := archive before |}.

(** The [async with] block is one transaction; the [for] loop runs in
    it until a statement raises, and the exception is logged by the
    [except]. *)
Definition ingest (self : t) (clk : Clock)
    (session_key user_msg assistant_msg : string) (db : Database) : Database :=
  let table := PostgresMemoryStore.conversation_table (_store self) in
  let '(reached, raised) :=
    fold_left (λ '(d, raised) role_content,
                 if raised : bool then (d, true)
                 else
                   match ingest_role self clk session_key role_content d with
                   | Some d' => (d', false)
                   | None => (d, true)
                   end)
      [("user", user_msg); ("assistant", assistant_msg)] (db, false) in
  if raised then rolled_back table reached db else reached.

End ConversationIngestor.

(** ** The backend protocol ([nanobot/agent/memory_base.py])

    A backend is an object [B] acting on a state [S] (the memory
    directory, the database).  A method that raises is [None]; the file
    store, on a memory directory that can be read and written, does not
    raise.  [close] only releases the connection pool, which is not
    modelled. *)

Module Backend.

Class MemoryBackend (B S : Type) := {
  initialize : B → S → S;
  read_today : B → Db.Clock → S → option string;
  append_today : B → Db.Clock → string → S → option S;
  read_long_term : B → S → option string;
  write_long_term : B → Db.Clock → string → S → option S;
  get_recent_memories : B → Db.Clock → Z → S → option string;
  get_memory_context : B → Db.Clock → S → option string;
}.

(** [MemoryStore(workspace)] *)
Record FileStore := { workspace : string }.



End Backend.

(** ** Memory tools ([nanobot/agent/tools/memory.py])

    [execute] returns the text for the model and the state the backend is
    left in.  [str_e] is the text of the exception a failing backend
    raised. *)

(** [a or b] on [str] *)
Definition str_or (a b : string) : string :=
  if Py.truthy_str a then a else b.

Module SaveMemoryTool.
Section Execute.
Context {B S : Type} `{!Backend.MemoryBackend B S}.
Variable str_e : string.

Definition execute (_memory : B) (clk : Db.Clock) (content : string)
    (st : S) : string * S :=
  match Backend.append_today _memory clk content st with
  | Some st' => ("Memory saved successfully.", st')
  | None => ("Error saving memory: " +:+ str_e, st)
  end.
End Execute.
End SaveMemoryTool.

Module UpdateLongTermMemoryTool.
Section Execute.
Context {B S : Type} `{!Backend.MemoryBackend B S}.
Variable str_e : string.

Definition execute (_memory : B) (clk : Db.Clock) (content : string)
    (st : S) : string * S :=
  match Backend.write_long_term _memory clk content st with
  | Some st' => ("Long-term memory updated successfully.", st')
  | None => ("Error updating long-term memory: " +:+ str_e, st)
  end.
End Execute.
End UpdateLongTermMemoryTool.

Module ReadMemoryTool.
Section Execute.
Context {B S : Type} `{!Backend.MemoryBackend B S}.
Variable str_e : string.

(** [days] is [None] when the call leaves it out: the default is 7. *)
Definition execute (_memory : B) (clk : Db.Clock) (scope : string)
    (days : option Z) (st : S) : string :=
  let days := default 7 days in
  let on_error (r : option string) : string :=
    match r with
    | Some text => text
    | None => "Error reading memory: " +:+ str_e
    end in
  if String.eqb scope "today" then
    on_error (content ← Backend.read_today _memory clk st;
              Some (str_or content "(No notes for today)"))
  else if String.eqb scope "long_term" then
    on_error (content ← Backend.read_long_term _memory st;
              Some (str_or content "(No long-term memory)"))
  else if String.eqb scope "recent" then
    on_error (content ← Backend.get_recent_memories _memory clk days st;
              Some (str_or content
                      ("(No memories in the last " +:+ Py.str_int days
                       +:+ " days)")))
  else
    "Error: unknown scope '" +:+ scope
      +:+ "', use 'today', 'long_term', or 'recent'".
End Execute.
End ReadMemoryTool.

(** ** The backend factory ([nanobot/agent/memory_factory.py])

    [MemoryConfig] is read through the attributes the factory uses.  The
    modules [nanobot.agent.memory_ingest] and [nanobot.agent.embedding]
    the factory imports are those of [baibo/agent].  The import of the
    relational store fails without psycopg ([psycopg_installed]); the
    import and the construction of the embedding service are inside a
    [try] whose [except] only logs ([embedding_available]).  The DSN and
    the pool sizes only reach the connection pool, which is not
    modelled. *)

Module MemoryFactory.




Inductive MemoryBackend :=
| File (store : Backend.FileStore)
| Postgres (store : PostgresMemoryStore.t).



End MemoryFactory.

(** ** Concrete data for the examples below *)

Module Examples.
Import Db.

(** A store provisioned for 2 dimensions and one for 3. *)
Definition store2 : PostgresMemoryStore.t :=
  {| PostgresMemoryStore.dimensions := 2;
     PostgresMemoryStore.semantic_search_limit := 10;
     PostgresMemoryStore.embedding_service := None |}.

Definition store3 : PostgresMemoryStore.t :=
  {| PostgresMemoryStore.dimensions := 3;
     PostgresMemoryStore.semantic_search_limit := 10;
     PostgresMemoryStore.embedding_service := None |}.

(** A worker whose embedding service is configured for 3 dimensions. *)
Definition worker3 : MemoryEmbeddingWorker.t :=
  {| MemoryEmbeddingWorker.embedding :=
       {| EmbeddingService.model := "openai/text-embedding-3-small";
          EmbeddingService.dimensions := 3;
          EmbeddingService.api_base := None;
          EmbeddingService.api_key := None |} |}.

(** An embedding API that answers with vectors of the dimension asked for
    (components as integers, for printing), one that answers with two
    components whatever is asked, and one that is down. *)
Definition api_up (service : EmbeddingService.t) (texts : list string)
    : option (list (list Z)) :=
  Some ((λ _, replicate (Z.to_nat (EmbeddingService.dimensions service)) 1)
          <$> texts).

Definition api_two (_ : EmbeddingService.t) (texts : list string)
    : option (list (list Z)) :=
  Some ((λ _, [1; 2]) <$> texts).

Definition api_down (_ : EmbeddingService.t) (_ : list string)
    : option (list (list Z)) := None.

(** The input function of the [vector] type on the literals of the
    examples, ["[c1,...,cn]"] with integers for components: such a literal
    has one component more than it has commas; the empty vector is
    refused. *)
Fixpoint count_commas (s : string) : Z :=
  match s with
  | EmptyString => 0
  | String c s' => (if Ascii.eqb c "," then 1 else 0) + count_commas s'
  end.

Definition pgvector_in (literal : string) : option Z :=
  if String.eqb literal "[]" then None else Some (count_commas literal + 1).

(** 2026-11-04, and two seconds later *)
Definition clock0 : Clock := {| now := 1000; today := 739924 |}.
Definition clock1 : Clock := {| now := 1002; today := 739924 |}.

(** The database after [append_today("pizza is great")] on a fresh
    schema. *)
Definition db_note (store : PostgresMemoryStore.t) : Database :=
  default Db.empty
    (PostgresMemoryStore.append_today store clock0 "pizza is great"
       (PostgresMemoryStore._ensure_schema store Db.empty)).

Definition config_k1 : OpenAPIChannel.OpenAPIConfig :=
  {| OpenAPIChannel.api_keys := ["k1"];
     OpenAPIChannel.timeout := 1;
     OpenAPIChannel.model_name := "nanobot" |}.

Definition config_open : OpenAPIChannel.OpenAPIConfig :=
  {| OpenAPIChannel.api_keys := [];
     OpenAPIChannel.timeout := 1;
     OpenAPIChannel.model_name := "nanobot" |}.

Definition ping_body : OpenAPIChannel.json :=
  OpenAPIChannel.JObj
    [("messages",
      OpenAPIChannel.JArr
        [OpenAPIChannel.JObj [("role", OpenAPIChannel.JStr "user");
                              ("content", OpenAPIChannel.JStr "ping")]]);
     ("user", OpenAPIChannel.JStr "u1")].

Definition request_with (hs : list (string * string)) : OpenAPIChannel.Request :=
  {| OpenAPIChannel.headers := hs; OpenAPIChannel.body := Some ping_body |}.

(** The database after [write_long_term("likes tea")] on a fresh schema,
    and a conversation ingestor on the store for 3 dimensions. *)
Definition db_fact (store : PostgresMemoryStore.t) : Database :=
  default Db.empty
    (PostgresMemoryStore.write_long_term store clock0 "likes tea"
       (PostgresMemoryStore._ensure_schema store Db.empty)).

Definition ingestor3 : ConversationIngestor.t :=
  {| ConversationIngestor._store := store3 |}.


End Examples.

(** * Properties *)

(** ** Examples *)

Example isoformat_2026_11_04 : Date.isoformat 739924 = "2026-11-04".
Proof. vm_compute. reflexivity. Qed.

Example isoformat_leap : Date.isoformat 738945 = "2024-02-29".
Proof. vm_compute. reflexivity. Qed.

Example file_recent_days1 :
  MemoryStore.get_recent_memories 739924 1
    (MemoryStore.append_today 739924 "b"
       (MemoryStore.append_today 739924 "a" ∅))
  = "# 2026-11-04

a
b".
Proof. vm_compute. reflexivity. Qed.


(** ** Strings and joins *)

Lemma append_cons (ch : ascii) (a b : string) :
  String ch a +:+ b = String ch (a +:+ b).
Proof. reflexivity. Qed.



(** ** ORDER BY *)

Section OrderBy.
Context {A : Type} (le : A → A → bool).




(** Sorting commutes with a row update that the comparison cannot see. *)
Lemma order_by_fmap (f : A → A) (l : list A) :
  (∀ a b, le (f a) (f b) = le a b) →
  Db.order_by le (f <$> l) = f <$> Db.order_by le l.
Proof.
  intros Hf.
  assert (Hins : ∀ a s, Db.insert_by le (f a) (f <$> s)
                        = f <$> Db.insert_by le a s).
  { intros a s. induction s as [|y s IH]; [reflexivity|].
    rewrite fmap_cons. cbn [Db.insert_by]. rewrite Hf.
    destruct (le a y); [reflexivity|]. rewrite fmap_cons. now f_equal. }
  induction l as [|a l IH]; [reflexivity|].
  rewrite fmap_cons. cbn [Db.order_by]. rewrite IH. apply Hins.
Qed.
End OrderBy.

(** ** Characters and newlines *)



Lemma length_append (a b : string) :
  String.length (a +:+ b) = (String.length a + String.length b)%nat.
Proof.
  induction a as [|ch a IH]; [reflexivity|].
  rewrite append_cons. simpl. now rewrite IH.
Qed.








(** ** File memory store *)


Lemma read_text_write_text_ne (path path' content : string)
    (fs : gmap string string) :
  path ≠ path' →
  MemoryStore.read_text (MemoryStore.write_text path content fs) path'
  = MemoryStore.read_text fs path'.
Proof.
  intros Hne. unfold MemoryStore.read_text, MemoryStore.write_text.
  now rewrite lookup_insert_ne.
Qed.





Lemma file_recent_zero (today : Date.date) (fs : gmap string string) :
  MemoryStore.get_recent_memories today 0 fs = "".
Proof. reflexivity. Qed.


(** ** Relational memory store *)

Lemma table_names_distinct (self : PostgresMemoryStore.t) :
  PostgresMemoryStore.daily_table self ≠ PostgresMemoryStore.long_term_table self ∧
  PostgresMemoryStore.daily_table self ≠ PostgresMemoryStore.conversation_table self ∧
  PostgresMemoryStore.long_term_table self
    ≠ PostgresMemoryStore.conversation_table self.
Proof.
  unfold PostgresMemoryStore.daily_table, PostgresMemoryStore.long_term_table,
    PostgresMemoryStore.conversation_table.
  repeat split; intros H; cbv [String.append] in H; discriminate.
Qed.

(** [_ensure_schema] on a database without tables provisions the store. *)
Lemma ensure_schema_initialized (self : PostgresMemoryStore.t) :
  PostgresMemoryStore.initialized self
    (PostgresMemoryStore._ensure_schema self Db.empty).
Proof.
  destruct (table_names_distinct self) as (Hdl & Hdc & Hlc).
  unfold PostgresMemoryStore.initialized, PostgresMemoryStore._ensure_schema,
    Db.create_table_if_not_exists, Db.with_tables, Db.empty. simpl.
  rewrite lookup_empty. simpl.
  rewrite lookup_insert_ne by done. rewrite lookup_empty. simpl.
  rewrite lookup_insert_ne by (intros E; symmetry in E; done).
  rewrite lookup_insert_ne by done. rewrite lookup_empty. simpl.
  repeat split; do 3 eexists.
  - rewrite lookup_insert_ne by (intros E; symmetry in E; done).
    rewrite lookup_insert_ne by (intros E; symmetry in E; done).
    apply lookup_insert_eq.
  - rewrite lookup_insert_ne by (intros E; symmetry in E; done).
    apply lookup_insert_eq.
  - apply lookup_insert_eq.
Qed.

Lemma max_version_ge (rows : list Db.LongTermRow) :
  Forall (λ r, Db.lt_version r ≤ PostgresMemoryStore.max_version rows) rows.
Proof.
  destruct rows as [|r rows]; [constructor|].
  unfold PostgresMemoryStore.max_version.
  revert r. induction rows as [|r' rows IH]; intros r; simpl.
  - constructor; [lia | constructor].
  - specialize (IH r). inversion IH as [|? ? Hr Hrows]; subst.
    constructor; [lia|]. constructor; [lia|].
    eapply Forall_impl; [exact Hrows|]. simpl. intros; lia.
Qed.


Lemma set_long_term_version vec rid r :
  Db.lt_version (Db.set_long_term vec rid r) = Db.lt_version r.
Proof. unfold Db.set_long_term. now destruct (_ =? _). Qed.

Lemma set_long_term_content vec rid r :
  Db.lt_content (Db.set_long_term vec rid r) = Db.lt_content r.
Proof. unfold Db.set_long_term. now destruct (_ =? _). Qed.

(** Setting embeddings changes neither which table is there nor what
    [read_long_term] returns. *)
Lemma read_long_term_embedding_step (self : PostgresMemoryStore.t)
    (db db' : Db.Database) :
  Db.embedding_step (Db.tables db) (Db.tables db') →
  PostgresMemoryStore.read_long_term self db'
  = PostgresMemoryStore.read_long_term self db.
Proof.
  unfold PostgresMemoryStore.read_long_term.
  intros [-> | (name & vec & rid & t & Ht & ->)]; [reflexivity|].
  destruct (decide (name = PostgresMemoryStore.long_term_table self)) as [->|Hne].
  - rewrite lookup_insert_eq, Ht.
    destruct t as [dim rows n|dim rows n|dim rows n]; simpl; try reflexivity.
    rewrite order_by_fmap
      by (intros; now rewrite !set_long_term_version).
    destruct (Db.order_by _ rows) as [|r rs]; simpl; [reflexivity|].
    now rewrite set_long_term_content.
  - now rewrite lookup_insert_ne.
Qed.

Lemma long_term_table_embedding_step (self : PostgresMemoryStore.t)
    (db db' : Db.Database) dim rows last :
  Db.embedding_step (Db.tables db) (Db.tables db') →
  Db.tables db !! PostgresMemoryStore.long_term_table self
    = Some (Db.LongTerm dim rows last) →
  ∃ rows', Db.tables db' !! PostgresMemoryStore.long_term_table self
           = Some (Db.LongTerm dim rows' last).
Proof.
  intros [-> | (name & vec & rid & t & Ht & ->)] Hlt; [eauto|].
  destruct (decide (name = PostgresMemoryStore.long_term_table self)) as [->|Hne].
  - rewrite lookup_insert_eq. rewrite Ht in Hlt. injection Hlt as ->.
    simpl. eauto.
  - rewrite lookup_insert_ne by done. eauto.
Qed.

(** ** Embedding worker *)

Lemma read_first_tables_queue vt_secs clk db :
  Db.tables (Db.pgmq_read vt_secs clk db).2 = Db.tables db.
Proof.
  unfold Db.pgmq_read. now destruct (Db.read_first _ _ _).
Qed.

(** The entry [pgmq.read] returns was visible, and is left in the queue
    with its visibility pushed [vt_secs] ahead. *)
Lemma read_first_some vt_secs t q e q' :
  Db.read_first vt_secs t q = (Some e, q') →
  Db.visible t e ∧ e ∈ q ∧
  {| Db.q_msg_id := Db.q_msg_id e; Db.q_vt := t + vt_secs;
     Db.q_message := Db.q_message e |} ∈ q'.
Proof.
  revert q'. induction q as [|a q IH]; intros q' H; simpl in H; [discriminate|].
  destruct (Z.leb_spec (Db.q_vt a) t) as [Hv|Hv].
  - injection H as -> <-. unfold Db.visible.
    repeat split; [exact Hv | constructor | constructor].
  - destruct (Db.read_first vt_secs t q) as [r q''] eqn:Hr.
    injection H as -> <-.
    destruct (IH _ eq_refl) as (? & ? & ?).
    repeat split; [assumption | now constructor | now constructor].
Qed.

(** A queue with a visible entry yields one. *)
Lemma read_first_visible vt_secs t q e :
  e ∈ q → Db.visible t e →
  ∃ e' q', Db.read_first vt_secs t q = (Some e', q').
Proof.
  intros Hin Hv. induction q as [|a q IH]; [inversion Hin|]. simpl.
  destruct (Z.leb_spec (Db.q_vt a) t) as [Ha|Ha]; [eauto|].
  apply elem_of_cons in Hin as [->|Hin].
  - unfold Db.visible in Hv. lia.
  - destruct (IH Hin) as (e' & q' & ->). eauto.
Qed.

Section WorkerFacts.
Context {float : Type}.
Variable aembedding :
  EmbeddingService.t → list string → option (list (list float)).
Variable str_float : float → string.
Variable pgvector_in : string → option Z.
Variable self : MemoryEmbeddingWorker.t.

(** A poll changes the tables by at most one committed UPDATE. *)
Lemma poll_once_embedding_step clk db :
  Db.embedding_step (Db.tables db)
    (Db.tables (MemoryEmbeddingWorker._poll_once aembedding str_float pgvector_in
                  self clk db).1.2).
Proof.
  unfold MemoryEmbeddingWorker._poll_once.
  pose proof (read_first_tables_queue MemoryEmbeddingWorker.VISIBILITY_TIMEOUT
                clk db) as Hts.
  destruct (Db.pgmq_read _ clk db) as [[entry|] db0]; simpl in *;
    [|left; exact Hts].
  destruct (EmbeddingService.embed _ _ _) as [v|]; simpl;
    [|left; exact Hts].
  unfold Db.update_embedding.
  destruct (Db.tables db0 !! _) as [t|] eqn:Ht; simpl; [|left; exact Hts].
  destruct t as [dim rows n|dim rows n|dim rows n]; simpl;
    try (left; exact Hts);
    (destruct (pgvector_in _) as [k|]; simpl; [|left; exact Hts]);
    (destruct (k =? dim); simpl; [|left; exact Hts]);
    right; rewrite Hts in *; eauto 10.
Qed.
End WorkerFacts.












Lemma pgmq_read_some vt_secs clk db entry db0 :
  Db.pgmq_read vt_secs clk db = (Some entry, db0) →
  Db.visible (Db.now clk) entry ∧ entry ∈ Db.queue db ∧
  {| Db.q_msg_id := Db.q_msg_id entry; Db.q_vt := Db.now clk + vt_secs;
     Db.q_message := Db.q_message entry |} ∈ Db.queue db0 ∧
  Db.tables db0 = Db.tables db ∧ Db.archive db0 = Db.archive db.
Proof.
  unfold Db.pgmq_read.
  destruct (Db.read_first vt_secs (Db.now clk) (Db.queue db)) as [r q] eqn:Hr.
  intros H. injection H as -> <-. simpl.
  destruct (read_first_some _ _ _ _ _ Hr) as (? & ? & ?). auto.
Qed.

Lemma pgmq_read_visible vt_secs clk db e :
  e ∈ Db.queue db → Db.visible (Db.now clk) e →
  ∃ e' db', Db.pgmq_read vt_secs clk db = (Some e', db').
Proof.
  intros Hin Hv. unfold Db.pgmq_read.
  destruct (read_first_visible vt_secs _ _ _ Hin Hv) as (e' & q' & ->). eauto.
Qed.

Lemma update_embedding_queue pgvector_in name vec rid db db1 :
  Db.update_embedding pgvector_in name vec rid db = Some db1 →
  Db.queue db1 = Db.queue db ∧ Db.archive db1 = Db.archive db.
Proof.
  unfold Db.update_embedding.
  destruct (Db.tables db !! name) as [[dim rows n|dim rows n|dim rows n]|];
    try discriminate;
    (destruct (pgvector_in vec) as [k|]; [|discriminate]);
    (destruct (k =? _); [|discriminate]);
    intros H; injection H as <-; auto.
Qed.

Section PollOnce.
Context {float : Type}.
Variable aembedding :
  EmbeddingService.t → list string → option (list (list float)).
Variable str_float : float → string.
Variable pgvector_in : string → option Z.
Variable self : MemoryEmbeddingWorker.t.

Import MemoryEmbeddingWorker.

(** The three ways a poll that got a message can end. *)
Lemma poll_once_cases clk db entry db0 :
  Db.pgmq_read VISIBILITY_TIMEOUT clk db = (Some entry, db0) →
  let message := Db.q_message entry in
  let read := PgmqRead QUEUE_NAME VISIBILITY_TIMEOUT in
  let embed := Embed (Db.m_content message) in
  (EmbeddingService.embed aembedding (embedding self) (Db.m_content message)
     = None ∧
   _poll_once aembedding str_float pgvector_in self clk db = (false, db0, [read; embed]))
  ∨
  (∃ v, EmbeddingService.embed aembedding (embedding self)
          (Db.m_content message) = Some v ∧
        let vec := "[" +:+ Py.join "," (str_float <$> v) +:+ "]" in
        let update := Update (Db.m_table message) vec (Db.m_id message) in
        (Db.update_embedding pgvector_in (Db.m_table message) vec (Db.m_id message) db0
           = None ∧
         _poll_once aembedding str_float pgvector_in self clk db
           = (false, db0, [read; embed; update]))
        ∨
        (∃ db1,
           Db.update_embedding pgvector_in (Db.m_table message) vec (Db.m_id message) db0
             = Some db1 ∧
           _poll_once aembedding str_float pgvector_in self clk db
             = (true, Db.pgmq_archive (Db.q_msg_id entry) db1,
                [read; embed; update;
                 PgmqArchive QUEUE_NAME (Db.q_msg_id entry)]))).
Proof.
  intros Hread. unfold _poll_once. rewrite Hread. simpl.
  destruct (EmbeddingService.embed _ _ _) as [v|]; [|left; auto].
  right. exists v. split; [reflexivity|]. simpl.
  destruct (Db.update_embedding _ _ _ _ db0) as [db1|]; [right|left]; eauto.
Qed.
End PollOnce.

(** C5. For every message a poll reads, the worker archives it exactly when
    the embedding call and the UPDATE both succeed: then the archive call is
    made, the message leaves the queue and sits in the archive.  When either
    fails, nothing but the read is committed: the message stays in the
    queue, hidden until 30 s after the read, and from then on a read
    delivers a message again. *)
Theorem poll_once_archives_iff_embedded_and_updated {float : Type}
    (aembedding : EmbeddingService.t → list string → option (list (list float)))
    (str_float : float → string) (pgvector_in : string → option Z)
    (self : MemoryEmbeddingWorker.t)
    (clk : Db.Clock) (db : Db.Database) (entry : Db.QueueEntry)
    (db0 : Db.Database) (result : bool) (db' : Db.Database)
    (calls : list MemoryEmbeddingWorker.Call) :
  Db.pgmq_read MemoryEmbeddingWorker.VISIBILITY_TIMEOUT clk db
    = (Some entry, db0) →
  MemoryEmbeddingWorker._poll_once aembedding str_float pgvector_in self clk db
    = (result, db', calls) →
  let message := Db.q_message entry in
  let mid := Db.q_msg_id entry in
  let hidden :=
    {| Db.q_msg_id := mid; Db.q_vt := Db.now clk + 30;
       Db.q_message := message |} in
  let succeeded :=
    ∃ v, EmbeddingService.embed aembedding
           (MemoryEmbeddingWorker.embedding self) (Db.m_content message)
         = Some v ∧
         is_Some (Db.update_embedding pgvector_in (Db.m_table message)
                    ("[" +:+ Py.join "," (str_float <$> v) +:+ "]")
                    (Db.m_id message) db0) in
  (MemoryEmbeddingWorker.PgmqArchive MemoryEmbeddingWorker.QUEUE_NAME mid
     ∈ calls ↔ succeeded) ∧
  ((∀ e, e ∈ Db.queue db' → Db.q_msg_id e ≠ mid) ↔ succeeded) ∧
  (succeeded → result = true ∧ hidden ∈ Db.archive db') ∧
  (¬ succeeded →
     result = false ∧ db' = db0 ∧ hidden ∈ Db.queue db' ∧
     Db.archive db' = Db.archive db ∧
     (∀ t, Db.visible t hidden ↔ Db.now clk + 30 ≤ t) ∧
     (∀ clk', Db.now clk + 30 ≤ Db.now clk' →
        ∃ e db'', Db.pgmq_read MemoryEmbeddingWorker.VISIBILITY_TIMEOUT clk' db'
                  = (Some e, db''))).
Proof.
  intros Hread Hpoll message mid hidden succeeded.
  destruct (pgmq_read_some _ _ _ _ _ Hread) as (_ & _ & Hhid & _ & Harch).
  change (Db.now clk + MemoryEmbeddingWorker.VISIBILITY_TIMEOUT)
    with (Db.now clk + 30) in Hhid. fold mid message hidden in Hhid.
  assert (Hfail : ¬ succeeded →
            (result, db', calls).1.2 = db0 → result = false →
            result = false ∧ db' = db0 ∧ hidden ∈ Db.queue db' ∧
            Db.archive db' = Db.archive db ∧
            (∀ t, Db.visible t hidden ↔ Db.now clk + 30 ≤ t) ∧
            (∀ clk', Db.now clk + 30 ≤ Db.now clk' →
               ∃ e db'', Db.pgmq_read MemoryEmbeddingWorker.VISIBILITY_TIMEOUT
                           clk' db' = (Some e, db''))).
  { simpl. intros _ -> ->. repeat split; try assumption.
    - unfold Db.visible. simpl. lia.
    - unfold Db.visible. simpl. lia.
    - intros clk' Hlater. apply (pgmq_read_visible _ _ _ hidden Hhid).
      unfold Db.visible. simpl. lia. }
  destruct (poll_once_cases aembedding str_float pgvector_in self clk db entry db0 Hread)
    as [[Hemb Heq] | (v & Hemb & [[Hupd Heq] | (db1 & Hupd & Heq)])];
    rewrite Heq in Hpoll; injection Hpoll as <- <- <-.
  - assert (Hno : ¬ succeeded).
    { intros (v & Hv & _). fold message in Hemb. congruence. }
    split; [|split; [|split]].
    + split; [|intros Hs; destruct (Hno Hs)].
      intros Hin.
      repeat (apply elem_of_cons in Hin as [Hin|Hin]; [discriminate|]).
      inversion Hin.
    + split; [|intros Hs; destruct (Hno Hs)].
      intros Hgone. destruct (Hgone _ Hhid). reflexivity.
    + intros Hs. destruct (Hno Hs).
    + intros _. apply Hfail; auto.
  - assert (Hno : ¬ succeeded).
    { intros (v' & Hv & Hsome). fold message in Hemb, Hupd.
      rewrite Hemb in Hv. injection Hv as <-.
      rewrite Hupd in Hsome. destruct Hsome; discriminate. }
    split; [|split; [|split]].
    + split; [|intros Hs; destruct (Hno Hs)].
      intros Hin.
      repeat (apply elem_of_cons in Hin as [Hin|Hin]; [discriminate|]).
      inversion Hin.
    + split; [|intros Hs; destruct (Hno Hs)].
      intros Hgone. destruct (Hgone _ Hhid). reflexivity.
    + intros Hs. destruct (Hno Hs).
    + intros _. apply Hfail; auto.
  - assert (Hyes : succeeded).
    { exists v. fold message in Hemb, Hupd. rewrite Hupd. split; eauto. }
    destruct (update_embedding_queue _ _ _ _ _ _ Hupd) as [Hq1 Ha1].
    split; [|split; [|split]].
    + split; [intros _; exact Hyes|]. intros _.
      do 3 (apply elem_of_cons; right). apply elem_of_cons. now left.
    + split; [intros _; exact Hyes|].
      intros _ e He. unfold Db.pgmq_archive in He. simpl in He.
      apply list_elem_of_filter in He as [He _]. exact He.
    + intros _. split; [reflexivity|]. unfold Db.pgmq_archive. simpl.
      apply elem_of_app. right. apply list_elem_of_filter.
      rewrite Hq1. split; [reflexivity | exact Hhid].
    + intros Hno. destruct (Hno Hyes).
Qed.

Example worker_embeds_note :
  MemoryEmbeddingWorker._poll_once Examples.api_up pretty Examples.pgvector_in Examples.worker3
    Examples.clock1 (Examples.db_note Examples.store3)
  = (true,
     Db.pgmq_archive 1
       (default Db.empty
          (Db.update_embedding Examples.pgvector_in "memory_daily_dim3" "[1,1,1]" 1
             (Db.pgmq_read 30 Examples.clock1
                (Examples.db_note Examples.store3)).2)),
     [MemoryEmbeddingWorker.PgmqRead "memory_embedding" 30;
      MemoryEmbeddingWorker.Embed "pizza is great";
      MemoryEmbeddingWorker.Update "memory_daily_dim3" "[1,1,1]" 1;
      MemoryEmbeddingWorker.PgmqArchive "memory_embedding" 1]).
Proof. vm_compute. reflexivity. Qed.

(** C1 (as stated, refuted). A message enqueued by a store of dimension 2
    is read by a worker whose embedding service is configured for 3: the
    worker calls the embedding service on its content and issues the UPDATE
    on the named table.  Here the [vector(2)] column refuses the three
    components, so nothing is archived and the message stays in the queue
    for the next attempt. *)
Lemma poll_once_does_not_skip_other_dimension :
  let db := Examples.db_note Examples.store2 in
  let out :=
    MemoryEmbeddingWorker._poll_once Examples.api_up pretty Examples.pgvector_in
      Examples.worker3 Examples.clock1 db in
  (Db.m_dimensions ∘ Db.q_message) <$> Db.queue db = [2] ∧
  EmbeddingService.dimensions
    (MemoryEmbeddingWorker.embedding Examples.worker3) = 3 ∧
  out.2 = [MemoryEmbeddingWorker.PgmqRead "memory_embedding" 30;
           MemoryEmbeddingWorker.Embed "pizza is great";
           MemoryEmbeddingWorker.Update "memory_daily_dim2" "[1,1,1]" 1] ∧
  out.1.1 = false ∧
  Db.q_msg_id <$> Db.queue out.1.2 = [1] ∧
  Db.archive out.1.2 = [].
Proof. vm_compute. repeat split; reflexivity. Qed.

(** With an embedding API that answers with two components whatever the
    service asks for, the same poll goes through: the row of the other
    table family gets its vector and the message is archived. *)
Example poll_once_archives_other_dimension :
  let db := Examples.db_note Examples.store2 in
  let out :=
    MemoryEmbeddingWorker._poll_once Examples.api_two pretty Examples.pgvector_in
      Examples.worker3 Examples.clock1 db in
  out.1.1 = true ∧
  out.2 = [MemoryEmbeddingWorker.PgmqRead "memory_embedding" 30;
           MemoryEmbeddingWorker.Embed "pizza is great";
           MemoryEmbeddingWorker.Update "memory_daily_dim2" "[1,2]" 1;
           MemoryEmbeddingWorker.PgmqArchive "memory_embedding" 1] ∧
  Db.queue out.1.2 = [] ∧
  Db.q_msg_id <$> Db.archive out.1.2 = [1] ∧
  Db.tables out.1.2 !! "memory_daily_dim2"
  = Some (Db.Daily 2 [ {| Db.d_id := 1; Db.d_entry_date := 739924;
                          Db.d_content := "pizza is great";
                          Db.d_embedding := Some "[1,2]" |} ] 1).
Proof. vm_compute. repeat split; reflexivity. Qed.

(** C1 (amended). For every message a poll reads whose [dimensions] field
    differs from the dimension the worker's embedding service is configured
    for, the worker does not skip it: after the read it calls the embedding
    service on the message content; when that call succeeds it issues the
    UPDATE on the named table; and when the UPDATE succeeds it archives the
    message and reports it processed. *)
Theorem poll_once_processes_other_dimension {float : Type}
    (aembedding : EmbeddingService.t → list string → option (list (list float)))
    (str_float : float → string) (pgvector_in : string → option Z)
    (self : MemoryEmbeddingWorker.t)
    (clk : Db.Clock) (db : Db.Database) (entry : Db.QueueEntry)
    (db0 : Db.Database) :
  Db.pgmq_read MemoryEmbeddingWorker.VISIBILITY_TIMEOUT clk db
    = (Some entry, db0) →
  Db.m_dimensions (Db.q_message entry)
    ≠ EmbeddingService.dimensions (MemoryEmbeddingWorker.embedding self) →
  let message := Db.q_message entry in
  let out := MemoryEmbeddingWorker._poll_once aembedding str_float pgvector_in self clk db in
  ∃ rest,
    out.2 = MemoryEmbeddingWorker.PgmqRead MemoryEmbeddingWorker.QUEUE_NAME
              MemoryEmbeddingWorker.VISIBILITY_TIMEOUT
            :: MemoryEmbeddingWorker.Embed (Db.m_content message) :: rest ∧
    ∀ v, EmbeddingService.embed aembedding
           (MemoryEmbeddingWorker.embedding self) (Db.m_content message)
         = Some v →
      let vec := "[" +:+ Py.join "," (str_float <$> v) +:+ "]" in
      ∃ rest',
        rest = MemoryEmbeddingWorker.Update (Db.m_table message) vec
                 (Db.m_id message) :: rest' ∧
        ∀ db1, Db.update_embedding pgvector_in (Db.m_table message) vec
                 (Db.m_id message) db0 = Some db1 →
          rest' = [MemoryEmbeddingWorker.PgmqArchive
                     MemoryEmbeddingWorker.QUEUE_NAME (Db.q_msg_id entry)] ∧
          out.1 = (true, Db.pgmq_archive (Db.q_msg_id entry) db1).
Proof.
  intros Hread _ message out.
  destruct (poll_once_cases aembedding str_float pgvector_in self clk db entry db0 Hread)
    as [[Hemb Heq] | (v & Hemb & [[Hupd Heq] | (db1 & Hupd & Heq)])];
    subst out; rewrite Heq; simpl; fold message in Hemb.
  - exists []. split; [reflexivity|]. intros v Hv. congruence.
  - eexists. split; [reflexivity|]. intros v' Hv.
    rewrite Hemb in Hv. injection Hv as <-.
    exists []. split; [reflexivity|]. intros db1 Hdb1.
    fold message in Hupd. congruence.
  - eexists. split; [reflexivity|]. intros v' Hv.
    rewrite Hemb in Hv. injection Hv as <-.
    eexists. split; [reflexivity|]. intros db1' Hdb1.
    fold message in Hupd. rewrite Hupd in Hdb1. injection Hdb1 as <-.
    split; reflexivity.
Qed.

(** C2 (the relational store at [days=0] and [days=1]). With one entry
    written today, [get_recent_memories(days=0)] of the relational store
    returns that entry under its header, not the empty string; and with an
    entry of yesterday too, [days=1] returns both days.  The file store
    ([file_recent_zero], [file_recent_one]) returns the empty string and
    today's file. *)
Theorem pg_get_recent_memories_counts_one_day_more :
  let db := Examples.db_note Examples.store3 in
  let yesterday := {| Db.now := 0; Db.today := 739923 |} in
  let db2 :=
    default Db.empty
      (PostgresMemoryStore.append_today Examples.store3 Examples.clock0
         "pizza is great"
         (default Db.empty
            (PostgresMemoryStore.append_today Examples.store3 yesterday
               "pasta too"
               (PostgresMemoryStore._ensure_schema Examples.store3
                  Db.empty)))) in
  PostgresMemoryStore.get_recent_memories Examples.store3 Examples.clock0 0 db
  = Some "# 2026-11-04

pizza is great" ∧
  PostgresMemoryStore.get_recent_memories Examples.store3 Examples.clock0 1 db2
  = Some "# 2026-11-04

pizza is great

---

# 2026-11-03

pasta too".
Proof. vm_compute. split; reflexivity. Qed.

(** ** Relational store: semantic context *)

(** C9. For every query, when the relational store has no embedding service
    attached, [get_memory_context_semantic(query)] returns what
    [get_memory_context()] returns (whatever the embedding API and the
    search routine would answer). *)
Theorem semantic_context_without_service {float : Type}
    (aembedding : EmbeddingService.t → list string → option (list (list float)))
    (search_func : string → Z → Db.Database
                   → option (list (PostgresMemoryStore.SearchRow float)))
    (str_float format_2f : float → string)
    (self : PostgresMemoryStore.t) (clk : Db.Clock) (query : string)
    (db : Db.Database) :
  PostgresMemoryStore.embedding_service self = None →
  PostgresMemoryStore.get_memory_context_semantic aembedding search_func
    str_float format_2f self clk query db
  = PostgresMemoryStore.get_memory_context self clk db.
Proof.
  intros Hnone. unfold PostgresMemoryStore.get_memory_context_semantic.
  now rewrite Hnone.
Qed.

(** ** HTTP channel: the API key *)

Lemma headers_get_missing (hs : list (string * string)) (name default : string) :
  (∀ v, (name, v) ∉ hs) →
  OpenAPIChannel.headers_get hs name default = default.
Proof.
  induction hs as [|[k v] hs IH]; intros Hmiss; simpl; [reflexivity|].
  destruct (String.eqb_spec k name) as [->|Hne].
  - destruct (Hmiss v). constructor.
  - apply IH. intros v' Hin. apply (Hmiss v'). now constructor.
Qed.

Lemma verify_api_key_no_keys (config : OpenAPIChannel.OpenAPIConfig)
    (request : OpenAPIChannel.Request) :
  OpenAPIChannel.api_keys config = [] →
  OpenAPIChannel._verify_api_key config request = true.
Proof. intros H. unfold OpenAPIChannel._verify_api_key. now rewrite H. Qed.

Lemma verify_api_key_no_prefix (config : OpenAPIChannel.OpenAPIConfig)
    (request : OpenAPIChannel.Request) :
  OpenAPIChannel.api_keys config ≠ [] →
  Py.startswith
    (OpenAPIChannel.headers_get (OpenAPIChannel.headers request)
       "Authorization" "") "Bearer " = false →
  OpenAPIChannel._verify_api_key config request = false.
Proof.
  intros Hkeys Hpre. unfold OpenAPIChannel._verify_api_key.
  destruct (OpenAPIChannel.api_keys config); [done|]. now rewrite Hpre.
Qed.

Lemma verify_api_key_bearer (config : OpenAPIChannel.OpenAPIConfig)
    (request : OpenAPIChannel.Request) (token : string) :
  OpenAPIChannel.api_keys config ≠ [] →
  OpenAPIChannel.headers_get (OpenAPIChannel.headers request)
    "Authorization" "" = "Bearer " +:+ token →
  OpenAPIChannel._verify_api_key config request
  = bool_decide (token ∈ OpenAPIChannel.api_keys config).
Proof.
  intros Hkeys Hhdr. unfold OpenAPIChannel._verify_api_key.
  destruct (OpenAPIChannel.api_keys config) as [|k ks] eqn:E; [done|].
  rewrite Hhdr.
  assert (Hpre : Py.startswith ("Bearer " +:+ token) "Bearer " = true).
  { unfold Py.startswith. cbv [String.append]. simpl. now destruct token. }
  rewrite Hpre. reflexivity.
Qed.

Section Unauthorized.
Variable json_dumps : OpenAPIChannel.json → string.
Variable is_allowed : OpenAPIChannel.json → bool.
Variable str_json : OpenAPIChannel.json → string.

(** A request that fails the key check is answered 401 before anything
    else is looked at, and the channel is left as it was. *)
Lemma chat_completions_rejects config env request st :
  OpenAPIChannel._verify_api_key config request = false →
  OpenAPIChannel._handle_chat_completions json_dumps is_allowed str_json
    config env request st
  = Some (OpenAPIChannel.JsonResponse 401
            (OpenAPIChannel.JObj
               [("error",
                 OpenAPIChannel.JObj
                   [("message", OpenAPIChannel.JStr "Invalid API key");
                    ("type", OpenAPIChannel.JStr "invalid_request_error")])]),
          st).
Proof.
  intros H. unfold OpenAPIChannel._handle_chat_completions. now rewrite H.
Qed.
End Unauthorized.

(** C8. When the allow-list [api_keys] is non-empty, a request to
    [/v1/chat/completions] whose bearer token is missing (no Authorization
    header), malformed (the header does not start with "Bearer ") or
    unlisted (the token after "Bearer " is not in the list) is answered 401
    with [error.type] "invalid_request_error"; when the list is empty every
    request passes the key check. *)
Theorem chat_completions_auth (json_dumps : OpenAPIChannel.json → string)
    (is_allowed : OpenAPIChannel.json → bool)
    (str_json : OpenAPIChannel.json → string)
    (config : OpenAPIChannel.OpenAPIConfig) (env : OpenAPIChannel.Env)
    (request : OpenAPIChannel.Request) (st : OpenAPIChannel.State) :
  let auth_header :=
    OpenAPIChannel.headers_get (OpenAPIChannel.headers request)
      "Authorization" "" in
  let missing := ∀ v, ("Authorization", v) ∉ OpenAPIChannel.headers request in
  let malformed := Py.startswith auth_header "Bearer " = false in
  let unlisted :=
    ∃ token, auth_header = "Bearer " +:+ token ∧
             token ∉ OpenAPIChannel.api_keys config in
  (OpenAPIChannel.api_keys config ≠ [] →
   missing ∨ malformed ∨ unlisted →
   OpenAPIChannel._handle_chat_completions json_dumps is_allowed str_json
     config env request st
   = Some (OpenAPIChannel.JsonResponse 401
             (OpenAPIChannel.JObj
                [("error",
                  OpenAPIChannel.JObj
                    [("message", OpenAPIChannel.JStr "Invalid API key");
                     ("type", OpenAPIChannel.JStr "invalid_request_error")])]),
           st)) ∧
  (OpenAPIChannel.api_keys config = [] →
   OpenAPIChannel._verify_api_key config request = true).
Proof.
  intros auth_header missing malformed unlisted. split.
  - intros Hkeys Hbad. apply chat_completions_rejects.
    destruct Hbad as [Hmiss | [Hmal | (token & Hhdr & Hnot)]].
    + apply verify_api_key_no_prefix; [exact Hkeys|].
      now rewrite headers_get_missing.
    + now apply verify_api_key_no_prefix.
    + rewrite (verify_api_key_bearer config request token Hkeys Hhdr).
      now apply bool_decide_eq_false.
  - apply verify_api_key_no_keys.
Qed.

(** C10. When the allow-list is non-empty, an Authorization header that does
    not begin with "Bearer " is rejected with 401, whether or not the whole
    header value is a listed key; and for a header "Bearer " followed by a
    token, the check is exactly whether that token is a member of the
    list. *)
Theorem bearer_prefix_required (json_dumps : OpenAPIChannel.json → string)
    (is_allowed : OpenAPIChannel.json → bool)
    (str_json : OpenAPIChannel.json → string)
    (config : OpenAPIChannel.OpenAPIConfig) (env : OpenAPIChannel.Env)
    (request : OpenAPIChannel.Request) (st : OpenAPIChannel.State) :
  OpenAPIChannel.api_keys config ≠ [] →
  let auth_header :=
    OpenAPIChannel.headers_get (OpenAPIChannel.headers request)
      "Authorization" "" in
  (Py.startswith auth_header "Bearer " = false →
   OpenAPIChannel._verify_api_key config request = false ∧
   ∃ data,
     OpenAPIChannel._handle_chat_completions json_dumps is_allowed str_json
       config env request st
     = Some (OpenAPIChannel.JsonResponse 401 data, st)) ∧
  (∀ token, auth_header = "Bearer " +:+ token →
     Py.slice_from 7 auth_header = token ∧
     (OpenAPIChannel._verify_api_key config request = true
      ↔ token ∈ OpenAPIChannel.api_keys config)).
Proof.
  intros Hkeys auth_header. split.
  - intros Hpre.
    assert (Hv := verify_api_key_no_prefix config request Hkeys Hpre).
    split; [exact Hv|]. eexists.
    now apply chat_completions_rejects.
  - intros token Hhdr. split; [now rewrite Hhdr|].
    rewrite (verify_api_key_bearer config request token Hkeys Hhdr).
    apply bool_decide_eq_true.
Qed.

(** The full header value being a listed key does not help. *)
Example bare_key_is_rejected :
  OpenAPIChannel._verify_api_key Examples.config_k1
    (Examples.request_with [("Authorization", "k1")]) = false ∧
  OpenAPIChannel._verify_api_key Examples.config_k1
    (Examples.request_with [("Authorization", "Bearer k1")]) = true ∧
  OpenAPIChannel._verify_api_key Examples.config_k1
    (Examples.request_with [("Authorization", "bearer k1")]) = false ∧
  OpenAPIChannel._verify_api_key Examples.config_k1
    (Examples.request_with [("Authorization", "Bearer k1 ")]) = false.
Proof. vm_compute. repeat split; reflexivity. Qed.

(** ** HTTP channel: buffered replies *)

Section Waiting.
Import OpenAPIChannel.
Variable fut : nat.
Variable chat_id : string.

(** While the handler waits: its future is pending, registered under its
    chat id and under no other. *)
Let waiting (st : State) : Prop :=
  futures st !! fut = Some Pending ∧
  _pending_responses st !! chat_id = Some fut ∧
  ∀ k, k ≠ chat_id → _pending_responses st !! k ≠ Some fut.

Lemma on_outbound_other_chat msg st :
  out_chat_id msg ≠ chat_id → waiting st → waiting (_on_outbound msg st).
Proof.
  intros Hne (Hf & Hp & Hothers). unfold _on_outbound.
  destruct (_pending_responses st !! out_chat_id msg) as [f|] eqn:Hk;
    [|now repeat split].
  assert (f ≠ fut) by (intros ->; now apply (Hothers _ Hne)).
  assert (Hdel : ∀ k, k ≠ chat_id →
            delete (out_chat_id msg) (_pending_responses st) !! k ≠ Some fut).
  { intros k Hkne. destruct (decide (out_chat_id msg = k)) as [->|Hd].
    - now rewrite lookup_delete_eq.
    - rewrite lookup_delete_ne by done. now apply Hothers. }
  destruct (futures st !! f) as [[| |]|]; unfold waiting; simpl;
    (split; [|split; [|exact Hdel]]);
    try (rewrite lookup_insert_ne by done); try exact Hf;
    rewrite lookup_delete_ne by done; exact Hp.
Qed.

Lemma wait_for_stays_pending events st :
  (∀ msg, Outbound msg ∈ events → out_chat_id msg ≠ chat_id) →
  Stop ∉ events →
  waiting st → waiting (wait_for fut events st).
Proof.
  revert st. induction events as [|e events IH]; intros st Hout Hstop Hw;
    simpl; [exact Hw|].
  destruct Hw as (Hf & Hp & Hothers). rewrite Hf.
  apply IH.
  - intros msg Hin. apply Hout. now constructor.
  - intros Hin. apply Hstop. now constructor.
  - destruct e as [msg|]; simpl.
    + apply on_outbound_other_chat; [|now repeat split].
      apply Hout. constructor.
    + destruct Hstop. constructor.
Qed.
End Waiting.

(** C6. A buffered request during whose wait no outbound message for its
    chat id arrives (and the channel is not stopped) is answered 504 with
    [error.type] "timeout_error"; its chat id is then no longer in the
    pending map, so an outbound message delivered later for that chat id
    changes nothing: no future is resolved and the map stays as it is. *)
Theorem non_stream_timeout (config : OpenAPIChannel.OpenAPIConfig)
    (created : Z) (events : list OpenAPIChannel.Event)
    (request_id chat_id user content : string) (st : OpenAPIChannel.State) :
  (∀ msg, OpenAPIChannel.Outbound msg ∈ events → out_chat_id msg ≠ chat_id) →
  OpenAPIChannel.Stop ∉ events →
  let out :=
    OpenAPIChannel._handle_non_stream config created events request_id
      chat_id user content st in
  out.1 = OpenAPIChannel.JsonResponse 504
            (OpenAPIChannel.JObj
               [("error",
                 OpenAPIChannel.JObj
                   [("message", OpenAPIChannel.JStr "Request timeout");
                    ("type", OpenAPIChannel.JStr "timeout_error")])]) ∧
  OpenAPIChannel._pending_responses out.2 !! chat_id = None ∧
  ∀ later, out_chat_id later = chat_id →
    OpenAPIChannel._on_outbound later out.2 = out.2.
Proof.
  intros Hout Hstop out. subst out.
  unfold OpenAPIChannel._handle_non_stream.
  set (fut := fresh _).
  set (st2 := OpenAPIChannel._handle_message _ _ _ _).
  assert (Hfresh : fut ∉ dom (OpenAPIChannel.futures st)
                         ∪ map_img (OpenAPIChannel._pending_responses st))
    by apply is_fresh.
  destruct (wait_for_stays_pending fut chat_id events st2 Hout Hstop)
    as (Hf & _ & _).
  { subst st2. unfold OpenAPIChannel._handle_message. simpl.
    repeat split; try apply lookup_insert_eq.
    intros k Hk. rewrite lookup_insert_ne by done.
    intros Hin. apply Hfresh, elem_of_union. right.
    now apply (elem_of_map_img_2 (SA:=gset nat) _ k). }
  rewrite Hf. simpl.
  assert (Hgone : delete chat_id
                    (OpenAPIChannel._pending_responses
                       (OpenAPIChannel.wait_for fut events st2)) !! chat_id
                  = None) by apply lookup_delete_eq.
  repeat split; [exact Hgone|].
  intros later Hlater. unfold OpenAPIChannel._on_outbound. simpl.
  now rewrite Hlater, Hgone.
Qed.

(** ** HTTP channel: streamed replies *)

(** C7. When the callback of a streaming request receives the chunks
    ("hel", not final) and then ("lo", final, "stop"), the body written is,
    in order and with nothing else: a [data:] frame whose
    [choices[0].delta.content] is "hel", a [data:] frame whose
    [choices[0].delta] is the empty object and whose
    [choices[0].finish_reason] is "stop", and the line [data: [DONE]]. *)
Theorem stream_hel_lo (json_dumps : OpenAPIChannel.json → string)
    (config : OpenAPIChannel.OpenAPIConfig) (created : Z)
    (request_id chat_id user content : string) (st : OpenAPIChannel.State) :
  let chunks :=
    [ {| chunk_content := "hel"; is_final := false; finish_reason := None |};
      {| chunk_content := "lo"; is_final := true;
         finish_reason := Some "stop" |} ] in
  ∃ first second response_headers,
    (OpenAPIChannel._handle_stream json_dumps config created chunks
       request_id chat_id user content st).1
    = OpenAPIChannel.StreamResponse 200 response_headers
        [ "data: " +:+ json_dumps first +:+ "

";
          "data: " +:+ json_dumps second +:+ "

";
          "data: [DONE]

" ] ∧
    OpenAPIChannel.choice0 "delta" first
    = Some (OpenAPIChannel.JObj [("content", OpenAPIChannel.JStr "hel")]) ∧
    OpenAPIChannel.choice0 "finish_reason" first = Some OpenAPIChannel.JNull ∧
    OpenAPIChannel.choice0 "delta" second = Some (OpenAPIChannel.JObj []) ∧
    OpenAPIChannel.choice0 "finish_reason" second
    = Some (OpenAPIChannel.JStr "stop").
Proof.
  intros chunks. do 3 eexists. split; [reflexivity|].
  repeat split; reflexivity.
Qed.

(** ** The sequence invariant

    Ids only come from the sequences, so [Db.sequences_ok] holds of a fresh
    schema and is kept by every operation of the store and of the worker. *)


Lemma sequences_ok_insert (db : Db.Database) (name : string) (t : Db.Table) :
  Db.sequences_ok db → Db.table_ok t →
  Db.sequences_ok (Db.with_tables db (<[name := t]> (Db.tables db))).
Proof.
  intros Hok Ht name' t' H. simpl in H.
  destruct (decide (name = name')) as [->|Hne].
  - rewrite lookup_insert_eq in H. now injection H as <-.
  - rewrite lookup_insert_ne in H by done. eauto.
Qed.



Lemma sequences_ok_append_today self clk content db db' :
  Db.sequences_ok db →
  PostgresMemoryStore.append_today self clk content db = Some db' →
  Db.sequences_ok db'.
Proof.
  intros Hok. unfold PostgresMemoryStore.append_today.
  destruct (Db.tables db !! _) as [[dim rows last| |]|] eqn:Ht; try discriminate.
  destruct (Db.text_ok content); [|discriminate].
  intros H. injection H as <-.
  apply (sequences_ok_insert db); [exact Hok|]. simpl.
  apply Forall_app. split.
  - eapply Forall_impl; [exact (Hok _ _ Ht)|]. simpl. intros; lia.
  - repeat constructor. simpl. lia.
Qed.

Lemma sequences_ok_write_long_term self clk content db db' :
  Db.sequences_ok db →
  PostgresMemoryStore.write_long_term self clk content db = Some db' →
  Db.sequences_ok db'.
Proof.
  intros Hok. unfold PostgresMemoryStore.write_long_term.
  destruct (Db.tables db !! _) as [[|dim rows last|]|] eqn:Ht; try discriminate.
  destruct (_ && _); [|discriminate].
  intros H. injection H as <-.
  apply (sequences_ok_insert db); [exact Hok|]. simpl.
  apply Forall_app. split.
  - eapply Forall_impl; [exact (Hok _ _ Ht)|]. simpl. intros; lia.
  - repeat constructor. simpl. lia.
Qed.

Lemma table_ok_update vec rid t :
  Db.table_ok t → Db.table_ok (Db.update_table vec rid t).
Proof.
  destruct t as [dim rows n|dim rows n|dim rows n]; simpl; intros H;
    apply Forall_fmap; (eapply Forall_impl; [exact H|]); intros r Hr; simpl;
    [unfold Db.set_daily | unfold Db.set_long_term | unfold Db.set_conversation];
    now destruct (_ =? _).
Qed.

Lemma sequences_ok_poll_once {float : Type}
    (aembedding : EmbeddingService.t → list string → option (list (list float)))
    (str_float : float → string) (pgvector_in : string → option Z)
    (self : MemoryEmbeddingWorker.t) clk db :
  Db.sequences_ok db →
  Db.sequences_ok
    (MemoryEmbeddingWorker._poll_once aembedding str_float pgvector_in self clk db).1.2.
Proof.
  intros Hok name t Hlook.
  destruct (poll_once_embedding_step aembedding str_float pgvector_in self clk db)
    as [Heq | (name' & vec & rid & t' & Ht' & Heq)];
    rewrite Heq in Hlook; [eauto|].
  destruct (decide (name' = name)) as [->|Hne].
  - rewrite lookup_insert_eq in Hlook. injection Hlook as <-.
    apply table_ok_update. eauto.
  - rewrite lookup_insert_ne in Hlook by done. eauto.
Qed.

(** ** The theorems at concrete inputs *)

Lemma poll_once_processes_other_dimension_witness :
  let db := Examples.db_note Examples.store2 in
  let out :=
    MemoryEmbeddingWorker._poll_once Examples.api_up pretty
      Examples.pgvector_in Examples.worker3 Examples.clock1 db in
  (∃ entry, (Db.pgmq_read 30 Examples.clock1 db).1 = Some entry ∧
            Db.m_dimensions (Db.q_message entry) = 2) ∧
  ∃ rest, out.2 = MemoryEmbeddingWorker.PgmqRead "memory_embedding" 30
                  :: MemoryEmbeddingWorker.Embed "pizza is great" :: rest.
Proof.
  intros db out.
  set (entry :=
    {| Db.q_msg_id := 1; Db.q_vt := 1000;
       Db.q_message :=
         {| Db.m_table := "memory_daily_dim2"; Db.m_id := 1;
            Db.m_content := "pizza is great"; Db.m_dimensions := 2 |} |}).
  assert (Hread : Db.pgmq_read MemoryEmbeddingWorker.VISIBILITY_TIMEOUT
                    Examples.clock1 db
                  = (Some entry, (Db.pgmq_read 30 Examples.clock1 db).2))
    by (vm_compute; reflexivity).
  assert (Hdim : Db.m_dimensions (Db.q_message entry)
                 ≠ EmbeddingService.dimensions
                     (MemoryEmbeddingWorker.embedding Examples.worker3))
    by (simpl; lia).
  split.
  - exists entry. split; vm_compute; reflexivity.
  - destruct (poll_once_processes_other_dimension Examples.api_up pretty
                Examples.pgvector_in Examples.worker3 Examples.clock1 db entry
                _ Hread Hdim)
      as (rest & Hcalls & _).
    exists rest. exact Hcalls.
Defined.



Lemma poll_once_archives_iff_embedded_and_updated_witness :
  let db := Examples.db_note Examples.store3 in
  let out :=
    MemoryEmbeddingWorker._poll_once Examples.api_down pretty
      Examples.pgvector_in Examples.worker3 Examples.clock1 db in
  ¬ MemoryEmbeddingWorker.PgmqArchive "memory_embedding" 1 ∈ out.2 ∧
  out.1.1 = false ∧
  {| Db.q_msg_id := 1; Db.q_vt := 1032;
     Db.q_message :=
       {| Db.m_table := "memory_daily_dim3"; Db.m_id := 1;
          Db.m_content := "pizza is great"; Db.m_dimensions := 3 |} |}
    ∈ Db.queue out.1.2.
Proof.
  intros db out.
  set (entry :=
    {| Db.q_msg_id := 1; Db.q_vt := 1000;
       Db.q_message :=
         {| Db.m_table := "memory_daily_dim3"; Db.m_id := 1;
            Db.m_content := "pizza is great"; Db.m_dimensions := 3 |} |}).
  assert (Hread : Db.pgmq_read MemoryEmbeddingWorker.VISIBILITY_TIMEOUT
                    Examples.clock1 db
                  = (Some entry, (Db.pgmq_read 30 Examples.clock1 db).2))
    by (vm_compute; reflexivity).
  assert (Hpoll : MemoryEmbeddingWorker._poll_once Examples.api_down pretty
                    Examples.pgvector_in Examples.worker3 Examples.clock1 db
                  = (out.1.1, out.1.2, out.2))
    by (vm_compute; reflexivity).
  destruct (poll_once_archives_iff_embedded_and_updated Examples.api_down
              pretty Examples.pgvector_in Examples.worker3 Examples.clock1 db
              entry _ _ _ _ Hread Hpoll) as (Hcall & _ & _ & Hfail).
  assert (Hno : ¬ ∃ v : list Z,
            EmbeddingService.embed Examples.api_down
              (MemoryEmbeddingWorker.embedding Examples.worker3)
              (Db.m_content (Db.q_message entry)) = Some v ∧
            is_Some (Db.update_embedding Examples.pgvector_in
                       (Db.m_table (Db.q_message entry))
                       ("[" +:+ Py.join "," (pretty <$> v) +:+ "]")
                       (Db.m_id (Db.q_message entry))
                       (Db.pgmq_read 30 Examples.clock1 db).2))
    by (intros (v & Hv & _); discriminate Hv).
  destruct (Hfail Hno) as (Hres & _ & Hin & _).
  split; [|split; [exact Hres | exact Hin]].
  intros Harch. apply Hno, Hcall, Harch.
Defined.

Lemma non_stream_timeout_witness :
  let other :=
    {| out_channel := "openapi"; out_chat_id := "u2:1f2e3d4c";
       out_content := "pong" |} in
  let out :=
    OpenAPIChannel._handle_non_stream Examples.config_k1 1762214400
      [OpenAPIChannel.Outbound other] "chatcmpl-0123456789abcdef01234567"
      "u1:9a8b7c6d" "u1" "ping" OpenAPIChannel.initial in
  out.1 = OpenAPIChannel.JsonResponse 504
            (OpenAPIChannel.JObj
               [("error",
                 OpenAPIChannel.JObj
                   [("message", OpenAPIChannel.JStr "Request timeout");
                    ("type", OpenAPIChannel.JStr "timeout_error")])]) ∧
  OpenAPIChannel._on_outbound
    {| out_channel := "openapi"; out_chat_id := "u1:9a8b7c6d";
       out_content := "late pong" |} out.2 = out.2.
Proof.
  intros other out.
  assert (Hout : ∀ msg,
            OpenAPIChannel.Outbound msg ∈ [OpenAPIChannel.Outbound other] →
            out_chat_id msg ≠ "u1:9a8b7c6d").
  { intros msg Hin. apply list_elem_of_singleton in Hin.
    injection Hin as ->. simpl. discriminate. }
  assert (Hstop : OpenAPIChannel.Stop ∉ [OpenAPIChannel.Outbound other]).
  { intros Hin. apply list_elem_of_singleton in Hin. discriminate. }
  destruct (non_stream_timeout Examples.config_k1 1762214400
              [OpenAPIChannel.Outbound other]
              "chatcmpl-0123456789abcdef01234567" "u1:9a8b7c6d" "u1" "ping"
              OpenAPIChannel.initial Hout Hstop) as (Hresp & _ & Hdrop).
  split; [exact Hresp|]. now apply Hdrop.
Defined.

Lemma chat_completions_auth_witness :
  OpenAPIChannel._handle_chat_completions (λ _, "") (λ _, true) (λ _, "")
    Examples.config_k1
    {| OpenAPIChannel.created := 1762214400;
       OpenAPIChannel.uuid_request := "0123456789abcdef0123456789abcdef";
       OpenAPIChannel.uuid_chat := "9a8b7c6d5e4f30211203f4e5d6c7b8a9";
       OpenAPIChannel.events := []; OpenAPIChannel.chunks := [] |}
    (Examples.request_with []) OpenAPIChannel.initial
  = Some (OpenAPIChannel.JsonResponse 401
            (OpenAPIChannel.JObj
               [("error",
                 OpenAPIChannel.JObj
                   [("message", OpenAPIChannel.JStr "Invalid API key");
                    ("type", OpenAPIChannel.JStr "invalid_request_error")])]),
          OpenAPIChannel.initial).
Proof.
  apply (chat_completions_auth (λ _, "") (λ _, true) (λ _, "")
           Examples.config_k1).
  - simpl. discriminate.
  - left. intros v Hin. inversion Hin.
Defined.

Lemma semantic_context_without_service_witness :
  PostgresMemoryStore.get_memory_context_semantic Examples.api_up
    (λ _ _ _, Some []) pretty pretty Examples.store3 Examples.clock0
    "food?" (Examples.db_note Examples.store3)
  = PostgresMemoryStore.get_memory_context Examples.store3 Examples.clock0
      (Examples.db_note Examples.store3).
Proof.
  apply (semantic_context_without_service Examples.api_up).
  reflexivity.
Defined.

Lemma bearer_prefix_required_witness :
  OpenAPIChannel._verify_api_key Examples.config_k1
    (Examples.request_with [("Authorization", "k1")]) = false.
Proof.
  refine (proj1 (proj1 (bearer_prefix_required (λ _, "") (λ _, true) (λ _, "")
            Examples.config_k1
            {| OpenAPIChannel.created := 0; OpenAPIChannel.uuid_request := "";
               OpenAPIChannel.uuid_chat := ""; OpenAPIChannel.events := [];
               OpenAPIChannel.chunks := [] |}
            (Examples.request_with [("Authorization", "k1")])
            OpenAPIChannel.initial _) _)).
  - simpl. discriminate.
  - reflexivity.
Defined.

(** ** The worker and the [dimensions] field

    The outcome of a poll does not depend on the [dimensions] carried by
    the queue messages: with every message relabelled to any [d], the poll
    makes the same calls, returns the same result and leaves the same
    database (relabelled alike). *)

Lemma read_first_relabel d vt_secs t q :
  Db.read_first vt_secs t (Db.with_dimensions d <$> q)
  = ((Db.with_dimensions d <$> (Db.read_first vt_secs t q).1),
     Db.with_dimensions d <$> (Db.read_first vt_secs t q).2).
Proof.
  induction q as [|e q IH]; [reflexivity|].
  rewrite fmap_cons. cbn [Db.read_first].
  change (Db.q_vt (Db.with_dimensions d e)) with (Db.q_vt e).
  destruct (Db.q_vt e <=? t); [reflexivity|].
  rewrite IH. now destruct (Db.read_first vt_secs t q).
Qed.

Lemma filter_fmap_comm {A : Type} (P : A → Prop) `{!∀ x, Decision (P x)}
    (f : A → A) (l : list A) :
  (∀ x, P (f x) ↔ P x) → filter P (f <$> l) = f <$> filter P l.
Proof.
  intros HP. induction l as [|a l IH]; [reflexivity|].
  rewrite fmap_cons, !filter_cons.
  destruct (decide (P (f a))) as [Hfa|Hfa], (decide (P a)) as [Ha|Ha];
    rewrite ?fmap_cons, IH; try reflexivity.
  - destruct Ha. now apply HP.
  - destruct Hfa. now apply HP.
Qed.

Lemma pgmq_archive_relabel d mid db :
  Db.pgmq_archive mid (Db.relabel d db) = Db.relabel d (Db.pgmq_archive mid db).
Proof.
  unfold Db.pgmq_archive, Db.relabel. simpl.
  rewrite fmap_app, !filter_fmap_comm by done. reflexivity.
Qed.

Lemma poll_once_dimensions_irrelevant {float : Type}
    (aembedding : EmbeddingService.t → list string → option (list (list float)))
    (str_float : float → string) (pgvector_in : string → option Z)
    (self : MemoryEmbeddingWorker.t)
    (clk : Db.Clock) (db : Db.Database) (d : Z) :
  let out :=
    MemoryEmbeddingWorker._poll_once aembedding str_float pgvector_in self clk
      db in
  MemoryEmbeddingWorker._poll_once aembedding str_float pgvector_in self clk
    (Db.relabel d db)
  = (out.1.1, Db.relabel d out.1.2, out.2).
Proof.
  unfold MemoryEmbeddingWorker._poll_once, Db.pgmq_read. simpl.
  rewrite read_first_relabel.
  destruct (Db.read_first _ _ (Db.queue db)) as [[entry|] q]; simpl;
    [|reflexivity].
  destruct (EmbeddingService.embed _ _ _) as [v|]; [|reflexivity].
  unfold Db.update_embedding. simpl.
  destruct (Db.tables db !! _) as [[dim rows n|dim rows n|dim rows n]|]; simpl;
    try reflexivity;
    (destruct (pgvector_in _) as [k|]; simpl; [|reflexivity]);
    (destruct (k =? dim); simpl; [|reflexivity]);
    rewrite <- pgmq_archive_relabel; reflexivity.
Qed.

(** After [write_long_term] the new row is the only one of maximal version,
    so ORDER BY version DESC LIMIT 1 has no tie to break. *)
Lemma pg_write_long_term_strict_max (self : PostgresMemoryStore.t)
    (clk : Db.Clock) (content : string) (db db' : Db.Database) dim rows last :
  Db.tables db !! PostgresMemoryStore.long_term_table self
    = Some (Db.LongTerm dim rows last) →
  PostgresMemoryStore.write_long_term self clk content db = Some db' →
  ∃ row, Db.tables db' !! PostgresMemoryStore.long_term_table self
         = Some (Db.LongTerm dim (rows ++ [row]) (last + 1)) ∧
         Db.lt_content row = content ∧
         Forall (λ r, Db.lt_version r < Db.lt_version row) rows.
Proof.
  intros Hlt. unfold PostgresMemoryStore.write_long_term. rewrite Hlt.
  destruct (_ && _); [|discriminate].
  intros H. injection H as <-. eexists. simpl. rewrite lookup_insert_eq.
  split; [reflexivity|]. split; [reflexivity|]. simpl.
  eapply Forall_impl; [apply max_version_ge|]. simpl. intros; lia.
Qed.

(** * Further properties of the HTTP channel *)

(** ** Outbound messages and futures *)

(** X1. Of two outbound messages for the same chat id only the first can
    resolve anything: handling the second changes nothing. *)
Theorem on_outbound_second_is_dropped (st : OpenAPIChannel.State)
    (first second : OutboundMessage) :
  out_chat_id second = out_chat_id first →
  OpenAPIChannel._on_outbound second (OpenAPIChannel._on_outbound first st)
  = OpenAPIChannel._on_outbound first st.
Proof.
  intros Hsame. unfold OpenAPIChannel._on_outbound at 1. rewrite Hsame.
  unfold OpenAPIChannel._on_outbound.
  destruct (OpenAPIChannel._pending_responses st !! out_chat_id first)
    as [fut|] eqn:Hp.
  - destruct (OpenAPIChannel.futures st !! fut) as [[| |]|]; simpl;
      now rewrite lookup_delete_eq.
  - now rewrite Hp.
Qed.

Lemma stop_fold_futures (fs0 : gmap nat OpenAPIChannel.Future)
    (m : gmap string nat) :
  ∀ f,
    map_fold (λ (_ : string) (fut : nat) (fs : gmap nat OpenAPIChannel.Future),
        match fs !! fut with
        | Some OpenAPIChannel.Pending => <[fut := OpenAPIChannel.Cancelled]> fs
        | _ => fs
        end) fs0 m !! f
    = match fs0 !! f with
      | Some OpenAPIChannel.Pending =>
          if decide (f ∈ map_img (SA:=gset nat) m)
          then Some OpenAPIChannel.Cancelled
          else Some OpenAPIChannel.Pending
      | other => other
      end.
Proof.
  revert m.
  apply (map_fold_weak_ind
    (λ (fs : gmap nat OpenAPIChannel.Future) (m : gmap string nat),
       ∀ f, fs !! f
            = match fs0 !! f with
              | Some OpenAPIChannel.Pending =>
                  if decide (f ∈ map_img (SA:=gset nat) m)
                  then Some OpenAPIChannel.Cancelled
                  else Some OpenAPIChannel.Pending
              | other => other
              end)).
  - intros f. rewrite map_img_empty_L.
    destruct (fs0 !! f) as [[| |]|]; reflexivity.
  - intros k fut m' fs Hk IH f.
    rewrite (map_img_insert_notin_L (SA:=gset nat)) by exact Hk.
    pose proof (IH fut) as Hfut. pose proof (IH f) as Hf.
    destruct (decide (f = fut)) as [->|Hne].
    + destruct (fs0 !! fut) as [[| |]|] eqn:E.
      * destruct (decide (fut ∈ ({[fut]} ∪ map_img m' : gset nat)))
          as [_|Hn];
          [|destruct Hn; apply elem_of_union; left; now apply elem_of_singleton].
        destruct (decide (fut ∈ map_img (SA:=gset nat) m'));
          rewrite Hfut; [exact Hfut | apply lookup_insert_eq].
      * rewrite Hfut. exact Hfut.
      * rewrite Hfut. exact Hfut.
      * rewrite Hfut. exact Hfut.
    + assert (Hother :
        (match fs !! fut with
         | Some OpenAPIChannel.Pending =>
             <[fut := OpenAPIChannel.Cancelled]> fs
         | _ => fs
         end) !! f = fs !! f).
      { destruct (fs !! fut) as [[| |]|]; try reflexivity.
        now rewrite lookup_insert_ne. }
      rewrite Hother, Hf.
      destruct (fs0 !! f) as [[| |]|]; try reflexivity.
      destruct (decide (f ∈ map_img (SA:=gset nat) m')) as [Hin|Hnin],
        (decide (f ∈ ({[fut]} ∪ map_img m' : gset nat))) as [Hin'|Hnin'];
        try reflexivity.
      * destruct Hnin'. apply elem_of_union. now right.
      * apply elem_of_union in Hin' as [Heq%elem_of_singleton|Hin'];
          [destruct (Hne Heq) | destruct (Hnin Hin')].
Qed.

Lemma stop_futures (st : OpenAPIChannel.State) (f : nat) :
  OpenAPIChannel.futures (OpenAPIChannel.stop st) !! f
  = match OpenAPIChannel.futures st !! f with
    | Some OpenAPIChannel.Pending =>
        if decide (f ∈ map_img (SA:=gset nat)
                         (OpenAPIChannel._pending_responses st))
        then Some OpenAPIChannel.Cancelled
        else Some OpenAPIChannel.Pending
    | other => other
    end.
Proof. apply stop_fold_futures. Qed.

(** X2. [stop] cancels exactly the futures that are still pending and
    registered in the pending map, leaves every other future as it is
    (a delivered reply stays delivered), and empties the map. *)
Theorem stop_cancels_registered_pending (st : OpenAPIChannel.State) :
  OpenAPIChannel._pending_responses (OpenAPIChannel.stop st) = ∅ ∧
  ∀ f,
    (OpenAPIChannel.futures st !! f = Some OpenAPIChannel.Pending →
     (∃ chat_id, OpenAPIChannel._pending_responses st !! chat_id = Some f) →
     OpenAPIChannel.futures (OpenAPIChannel.stop st) !! f
     = Some OpenAPIChannel.Cancelled) ∧
    (OpenAPIChannel.futures st !! f ≠ Some OpenAPIChannel.Pending ∨
     (∀ chat_id, OpenAPIChannel._pending_responses st !! chat_id ≠ Some f) →
     OpenAPIChannel.futures (OpenAPIChannel.stop st) !! f
     = OpenAPIChannel.futures st !! f).
Proof.
  split; [reflexivity|]. intros f. rewrite stop_futures. split.
  - intros -> [chat_id Hreg].
    destruct (decide _) as [_|Hn]; [reflexivity|].
    destruct Hn. now apply (elem_of_map_img_2 (SA:=gset nat) _ chat_id).
  - intros Hor.
    destruct (OpenAPIChannel.futures st !! f) as [[| |]|]; try reflexivity.
    destruct Hor as [Hne | Hunreg]; [now destruct Hne|].
    destruct (decide _) as [Hin|_]; [|reflexivity].
    apply elem_of_map_img in Hin as [chat_id Hreg]. now destruct (Hunreg chat_id).
Qed.

Lemma on_outbound_published msg st :
  OpenAPIChannel.published (OpenAPIChannel._on_outbound msg st)
  = OpenAPIChannel.published st.
Proof.
  unfold OpenAPIChannel._on_outbound.
  destruct (OpenAPIChannel._pending_responses st !! _); [|reflexivity].
  now destruct (OpenAPIChannel.futures st !! _) as [[| |]|].
Qed.

Lemma wait_for_published fut events st :
  OpenAPIChannel.published (OpenAPIChannel.wait_for fut events st)
  = OpenAPIChannel.published st.
Proof.
  revert st. induction events as [|e events IH]; intros st; [reflexivity|].
  simpl. destruct (OpenAPIChannel.futures st !! fut) as [[| |]|];
    try reflexivity.
  rewrite IH. destruct e; [apply on_outbound_published | reflexivity].
Qed.

Lemma wait_for_not_pending fut events st :
  OpenAPIChannel.futures st !! fut ≠ Some OpenAPIChannel.Pending →
  OpenAPIChannel.wait_for fut events st = st.
Proof.
  intros Hne. destruct events as [|e events]; [reflexivity|]. simpl.
  destruct (OpenAPIChannel.futures st !! fut) as [[| |]|];
    try reflexivity. now destruct Hne.
Qed.

Section Replies.
Import OpenAPIChannel.
Variable config : OpenAPIConfig.
Variable created : Z.
Variables request_id chat_id user content : string.
Variable st : State.

(** The state in which the handler starts to wait. *)
Let fut : nat := fresh (dom (futures st) ∪ map_img (_pending_responses st)).
Let registered : State :=
  _handle_message user chat_id content
    {| futures := <[fut := Pending]> (futures st);
       _pending_responses := <[chat_id := fut]> (_pending_responses st);
       published := published st |}.

Lemma registered_waits :
  futures registered !! fut = Some Pending ∧
  _pending_responses registered !! chat_id = Some fut ∧
  ∀ k, k ≠ chat_id → _pending_responses registered !! k ≠ Some fut.
Proof.
  unfold registered, _handle_message. simpl.
  repeat split; try apply lookup_insert_eq.
  intros k Hk. rewrite lookup_insert_ne by done.
  intros Hin. apply (is_fresh (dom (futures st)
                               ∪ map_img (_pending_responses st))).
  apply elem_of_union. right.
  now apply (elem_of_map_img_2 (SA:=gset nat) _ k).
Qed.

(** Events for other chats leave the handler waiting; what comes after
    them is handled from the state they lead to. *)
Lemma wait_for_others before rest :
  (∀ msg, Outbound msg ∈ before → out_chat_id msg ≠ chat_id) →
  Stop ∉ before →
  let waited := wait_for fut before registered in
  wait_for fut (before ++ rest) registered = wait_for fut rest waited ∧
  futures waited !! fut = Some Pending ∧
  _pending_responses waited !! chat_id = Some fut ∧
  published waited = published st ++
    [ {| in_channel := name; in_sender_id := user; in_chat_id := chat_id;
         in_content := content; wants_stream := false |} ].
Proof.
  intros Hout Hstop waited. subst waited.
  assert (Hgen : ∀ s,
    (futures s !! fut = Some Pending ∧
     _pending_responses s !! chat_id = Some fut ∧
     ∀ k, k ≠ chat_id → _pending_responses s !! k ≠ Some fut) →
    wait_for fut (before ++ rest) s = wait_for fut rest (wait_for fut before s)).
  { revert Hout Hstop. clear. induction before as [|e before IH];
      intros Hout Hstop s Hw; [reflexivity|].
    simpl. destruct Hw as (Hf & Hp & Ho). rewrite Hf. apply IH.
    - intros msg Hin. apply Hout. now constructor.
    - intros Hin. apply Hstop. now constructor.
    - destruct e as [msg|].
      + apply (on_outbound_other_chat fut chat_id); [|now repeat split].
        apply Hout. constructor.
      + destruct Hstop. constructor. }
  pose proof registered_waits as Hreg.
  destruct (wait_for_stays_pending fut chat_id before registered Hout Hstop Hreg)
    as (Hf & Hp & _).
  split; [now apply Hgen|]. split; [exact Hf|]. split; [exact Hp|].
  rewrite wait_for_published. reflexivity.
Qed.

(** X3. A buffered request is answered by the first outbound message for
    its chat id: when one arrives during the wait (after any messages for
    other chats, the channel not being stopped before), the answer is 200
    with that message's content as [choices[0].message.content],
    [finish_reason] "stop" and the token estimates [len/4]; the chat id has
    left the pending map and exactly one inbound message was published. *)
Theorem non_stream_reply before (msg : OutboundMessage) after :
  (∀ m, Outbound m ∈ before → out_chat_id m ≠ chat_id) →
  Stop ∉ before →
  out_chat_id msg = chat_id →
  let out :=
    _handle_non_stream config created (before ++ Outbound msg :: after)
      request_id chat_id user content st in
  out.1 = JsonResponse 200
    (JObj [("id", JStr request_id);
           ("object", JStr "chat.completion");
           ("created", JInt created);
           ("model", JStr (model_name config));
           ("choices",
            JArr [JObj [("index", JInt 0);
                        ("message",
                         JObj [("role", JStr "assistant");
                               ("content", JStr (out_content msg))]);
                        ("finish_reason", JStr "stop")]]);
           ("usage",
            JObj [("prompt_tokens", JInt (len content / 4));
                  ("completion_tokens", JInt (len (out_content msg) / 4));
                  ("total_tokens",
                   JInt ((len content + len (out_content msg)) / 4))])]) ∧
  _pending_responses out.2 !! chat_id = None ∧
  published out.2 = published st ++
    [ {| in_channel := name; in_sender_id := user; in_chat_id := chat_id;
         in_content := content; wants_stream := false |} ].
Proof.
  intros Hout Hstop Hchat out. subst out. unfold _handle_non_stream.
  fold fut. fold registered.
  destruct (wait_for_others before (Outbound msg :: after) Hout Hstop)
    as (Happ & Hf & Hp & Hpub).
  rewrite Happ. simpl. rewrite Hf. simpl.
  unfold _on_outbound. rewrite Hchat, Hp, Hf.
  rewrite wait_for_not_pending
    by (simpl; rewrite lookup_insert_eq; discriminate).
  simpl. rewrite lookup_insert_eq. simpl.
  repeat split; [apply lookup_delete_eq | exact Hpub].
Qed.

(** X4. A buffered request whose channel is stopped during the wait, before
    any outbound message for its chat id, is answered 499 with
    [error.type] "cancelled_error", and the pending map is empty. *)
Theorem non_stream_cancelled before after :
  (∀ m, Outbound m ∈ before → out_chat_id m ≠ chat_id) →
  Stop ∉ before →
  let out :=
    _handle_non_stream config created (before ++ Stop :: after)
      request_id chat_id user content st in
  out.1 = JsonResponse 499
    (JObj [("error", JObj [("message", JStr "Request cancelled");
                           ("type", JStr "cancelled_error")])]) ∧
  _pending_responses out.2 = ∅.
Proof.
  intros Hout Hstop out. subst out. unfold _handle_non_stream.
  fold fut. fold registered.
  destruct (wait_for_others before (Stop :: after) Hout Hstop)
    as (Happ & Hf & Hp & _).
  rewrite Happ. simpl. rewrite Hf. simpl.
  assert (Hcancel : futures (stop (wait_for fut before registered)) !! fut
                    = Some Cancelled).
  { rewrite stop_futures, Hf.
    destruct (decide _) as [_|Hn]; [reflexivity|].
    destruct Hn. now apply (elem_of_map_img_2 (SA:=gset nat) _ chat_id). }
  rewrite wait_for_not_pending by (rewrite Hcancel; discriminate).
  rewrite Hcancel. split; reflexivity.
Qed.
End Replies.

(** X5. A future that is done stays as it is: whatever outbound messages
    and stops the channel handles afterwards, a delivered reply is neither
    overwritten nor cancelled, and a cancelled future is not resolved. *)
Theorem done_future_is_final (events : list OpenAPIChannel.Event)
    (st : OpenAPIChannel.State) (f : nat) (state : OpenAPIChannel.Future) :
  OpenAPIChannel.futures st !! f = Some state →
  state ≠ OpenAPIChannel.Pending →
  OpenAPIChannel.futures
    (fold_left (λ s e, OpenAPIChannel.deliver e s) events st) !! f
  = Some state.
Proof.
  intros Hf Hdone. revert st Hf.
  induction events as [|e events IH]; intros st Hf; [exact Hf|].
  cbn [fold_left]. apply IH. destruct e as [msg|]; cbn [OpenAPIChannel.deliver].
  - unfold OpenAPIChannel._on_outbound.
    destruct (OpenAPIChannel._pending_responses st !! _) as [fut|];
      [|exact Hf].
    destruct (OpenAPIChannel.futures st !! fut) as [[| |]|] eqn:E;
      simpl; try exact Hf.
    rewrite lookup_insert_ne; [exact Hf|]. intros ->. congruence.
  - rewrite stop_futures, Hf. now destruct state.
Qed.

(** ** Requests that are refused *)

Lemma non_stream_status config created events request_id chat_id user content st :
  ∃ status data,
    (OpenAPIChannel._handle_non_stream config created events request_id
       chat_id user content st).1
    = OpenAPIChannel.JsonResponse status data ∧
    (status = 200 ∨ status = 499 ∨ status = 504).
Proof.
  unfold OpenAPIChannel._handle_non_stream.
  destruct (OpenAPIChannel.futures _ !! _) as [[| |]|]; simpl;
    do 2 eexists; (split; [reflexivity|]); auto.
Qed.

(** X6. A request answered 400, 401 or 403 leaves the channel as it was:
    nothing is published on the bus and no future is registered. *)
Theorem client_error_leaves_channel_untouched
    (json_dumps : OpenAPIChannel.json → string)
    (is_allowed : OpenAPIChannel.json → bool)
    (str_json : OpenAPIChannel.json → string)
    (config : OpenAPIChannel.OpenAPIConfig) (env : OpenAPIChannel.Env)
    (request : OpenAPIChannel.Request) (st st' : OpenAPIChannel.State)
    (status : Z) (data : OpenAPIChannel.json) :
  OpenAPIChannel._handle_chat_completions json_dumps is_allowed str_json
    config env request st
  = Some (OpenAPIChannel.JsonResponse status data, st') →
  status = 400 ∨ status = 401 ∨ status = 403 →
  st' = st.
Proof.
  unfold OpenAPIChannel._handle_chat_completions.
  destruct (negb _); [intros H _; congruence|].
  destruct (OpenAPIChannel.body request) as [[| | | | |fields]|];
    try discriminate; [|intros H _; congruence].
  destruct (negb (OpenAPIChannel.truthy _));
    [intros H _; congruence|].
  destruct (default _ (OpenAPIChannel.dict_get fields "messages"))
    as [| | | |items|]; try discriminate.
  destruct (OpenAPIChannel.last_user_content _) as [user_content|];
    [|discriminate].
  destruct (negb (Py.truthy_str _)); [intros H _; congruence|].
  destruct (negb (is_allowed _)); [intros H _; congruence|].
  destruct (OpenAPIChannel.truthy _).
  - unfold OpenAPIChannel._handle_stream. discriminate.
  - intros H Hstatus.
    match type of H with
    | Some (OpenAPIChannel._handle_non_stream ?c ?t ?ev ?rid ?cid ?u ?ct ?s) = _ =>
        destruct (non_stream_status c t ev rid cid u ct s)
          as (status' & data' & Heq & Hrange);
        destruct (OpenAPIChannel._handle_non_stream c t ev rid cid u ct s)
          as [response st'']
    end.
    simpl in Heq. subst response. injection H as -> _ _. lia.
Qed.

(** ** The user message a request carries *)

Lemma last_user_content_skips (skipped rest : list OpenAPIChannel.json) :
  Forall (λ m, ∃ fields,
            m = OpenAPIChannel.JObj fields ∧
            OpenAPIChannel.is_str (OpenAPIChannel.dict_get fields "role")
              "user" = false) skipped →
  OpenAPIChannel.last_user_content (skipped ++ rest)
  = OpenAPIChannel.last_user_content rest.
Proof.
  induction 1 as [|m skipped (fields & -> & Hrole) _ IH]; [reflexivity|].
  simpl. now rewrite Hrole.
Qed.

(** X7. The text taken from a request is the content of the last message
    whose role is "user": messages after it with another role are passed
    over, and the messages before it are not looked at, whatever they are
    (they need not even be objects). *)
Theorem last_user_message_wins (before after : list OpenAPIChannel.json)
    (user_msg : list (string * OpenAPIChannel.json)) (content : string) :
  OpenAPIChannel.dict_get user_msg "role" = Some (OpenAPIChannel.JStr "user") →
  OpenAPIChannel.dict_get user_msg "content"
    = Some (OpenAPIChannel.JStr content) →
  Forall (λ m, ∃ fields,
            m = OpenAPIChannel.JObj fields ∧
            OpenAPIChannel.is_str (OpenAPIChannel.dict_get fields "role")
              "user" = false) after →
  OpenAPIChannel.last_user_content
    (rev (before ++ OpenAPIChannel.JObj user_msg :: after))
  = Some content.
Proof.
  intros Hrole Hcontent Hafter.
  rewrite rev_app_distr. simpl. rewrite <- app_assoc.
  rewrite last_user_content_skips by now apply Forall_rev.
  simpl. now rewrite Hrole, Hcontent.
Qed.

(** ** Streamed replies *)

Lemma stream_queue (chunks : list StreamChunk) :
  ∀ queue,
    fold_left (λ q c, OpenAPIChannel.stream_callback c q) chunks queue
    = queue ++ flat_map (λ c, if is_final c then [Some c; None] else [Some c])
                 chunks.
Proof.
  induction chunks as [|c chunks IH]; intros queue; simpl.
  - now rewrite app_nil_r.
  - rewrite IH. unfold OpenAPIChannel.stream_callback.
    destruct (is_final c); now rewrite <- ?app_assoc.
Qed.

Lemma flat_map_not_final (chunks : list StreamChunk) :
  Forall (λ c, is_final c = false) chunks →
  flat_map (λ c, if is_final c then [Some c; None] else [Some c]) chunks
  = Some <$> chunks.
Proof.
  induction 1 as [|c chunks Hc _ IH]; [reflexivity|].
  simpl. now rewrite Hc, IH.
Qed.

Section StreamFacts.
Import OpenAPIChannel.
Variable json_dumps : json → string.
Variable config : OpenAPIConfig.
Variable created : Z.
Variable request_id : string.

Lemma stream_loop_chunks (chunks : list StreamChunk)
    (rest : list (option StreamChunk)) :
  stream_loop json_dumps config created request_id ((Some <$> chunks) ++ rest)
  = ((λ c, frame (json_dumps (sse_data config created request_id c)))
       <$> chunks)
    ++ stream_loop json_dumps config created request_id rest.
Proof.
  induction chunks as [|c chunks IH]; [reflexivity|].
  rewrite !fmap_cons. simpl. now rewrite IH.
Qed.

(** X8. A stream ends with its first final chunk: the body is one frame
    per chunk up to and including that chunk, then [data: [DONE]]; chunks
    handed to the callback after the final one are never written.  The
    frame of the final chunk has an empty [delta], whatever text the chunk
    carries, and its [finish_reason] is the chunk's, or "stop" when the
    chunk has none. *)
Theorem stream_ends_at_final_chunk (chunks : list StreamChunk)
    (final : StreamChunk) (ignored : list StreamChunk)
    (chat_id user content : string) (st : State) :
  Forall (λ c, is_final c = false) chunks →
  is_final final = true →
  (∃ response_headers,
     (_handle_stream json_dumps config created (chunks ++ final :: ignored)
        request_id chat_id user content st).1
     = StreamResponse 200 response_headers
         (((λ c, frame (json_dumps (sse_data config created request_id c)))
             <$> (chunks ++ [final]))
          ++ ["data: [DONE]

"])) ∧
  choice0 "delta" (sse_data config created request_id final) = Some (JObj []) ∧
  choice0 "finish_reason" (sse_data config created request_id final)
  = Some (JStr match finish_reason final with
               | Some "" | None => "stop"
               | Some reason => reason
               end).
Proof.
  intros Hchunks Hfinal. split; [|split].
  - eexists. unfold _handle_stream. simpl. f_equal.
    rewrite stream_queue. simpl.
    rewrite flat_map_app, flat_map_not_final by exact Hchunks.
    simpl. rewrite Hfinal. simpl.
    rewrite stream_loop_chunks. simpl.
    rewrite fmap_app. simpl. now rewrite <- app_assoc.
  - unfold sse_data. rewrite Hfinal. reflexivity.
  - unfold sse_data. rewrite Hfinal.
    destruct (finish_reason final) as [[|ch reason]|]; reflexivity.
Qed.

(** X9. A stream whose chunks are all non-final (the agent never finishes)
    times out: the body is one frame per chunk, then a frame with the error
    [type] "timeout_error", then [data: [DONE]]. *)
Theorem stream_without_final_chunk_times_out (chunks : list StreamChunk)
    (chat_id user content : string) (st : State) :
  Forall (λ c, is_final c = false) chunks →
  ∃ response_headers,
    (_handle_stream json_dumps config created chunks request_id chat_id
       user content st).1
    = StreamResponse 200 response_headers
        (((λ c, frame (json_dumps (sse_data config created request_id c)))
            <$> chunks)
         ++ [ frame (json_dumps
                (JObj [("error", JObj [("message", JStr "Stream timeout");
                                       ("type", JStr "timeout_error")])]));
              "data: [DONE]

" ]).
Proof.
  intros Hchunks. eexists. unfold _handle_stream. simpl. f_equal.
  rewrite stream_queue. simpl. rewrite flat_map_not_final by exact Hchunks.
  rewrite <- (app_nil_r (Some <$> chunks)), stream_loop_chunks. simpl.
  now rewrite <- app_assoc.
Qed.
End StreamFacts.

(** * Further properties of the embedding worker *)

Lemma read_first_none vt_secs t q :
  Forall (λ e, ¬ Db.visible t e) q → Db.read_first vt_secs t q = (None, q).
Proof.
  induction 1 as [|e q He _ IH]; [reflexivity|]. simpl.
  destruct (Z.leb_spec (Db.q_vt e) t) as [Hv|Hv]; [now destruct He|].
  now rewrite IH.
Qed.

Lemma pgmq_read_none vt_secs clk db :
  Forall (λ e, ¬ Db.visible (Db.now clk) e) (Db.queue db) →
  Db.pgmq_read vt_secs clk db = (None, db).
Proof.
  intros H. unfold Db.pgmq_read. rewrite read_first_none by exact H.
  now destruct db.
Qed.

(** X10. A poll that finds no visible message (an empty queue, or every
    message still hidden by an earlier read) returns [False], makes no
    embedding call and no UPDATE, and leaves the database as it is. *)
Theorem poll_once_nothing_visible {float : Type}
    (aembedding : EmbeddingService.t → list string → option (list (list float)))
    (str_float : float → string) (pgvector_in : string → option Z)
    (self : MemoryEmbeddingWorker.t)
    (clk : Db.Clock) (db : Db.Database) :
  Forall (λ e, ¬ Db.visible (Db.now clk) e) (Db.queue db) →
  MemoryEmbeddingWorker._poll_once aembedding str_float pgvector_in self clk db
  = (false, db,
     [MemoryEmbeddingWorker.PgmqRead MemoryEmbeddingWorker.QUEUE_NAME
        MemoryEmbeddingWorker.VISIBILITY_TIMEOUT]).
Proof.
  intros H. unfold MemoryEmbeddingWorker._poll_once.
  now rewrite pgmq_read_none.
Qed.

(** X11. Retry after the visibility timeout.  With one message in the
    queue, for a row of a daily or of a conversation table, and the
    embedding call failing, the poll leaves the message hidden: any poll
    earlier than 30 s after the read does nothing at all; a poll from 30 s
    on, with the embedding call now succeeding and the vector accepted for
    the column, gives the vector to the rows of the table that have the id
    of the message and to no other row, leaves every other table as it is,
    archives the message and empties the queue. *)
Theorem poll_once_retries_after_timeout {float : Type}
    (failing working other :
       EmbeddingService.t → list string → option (list (list float)))
    (str_float : float → string) (pgvector_in : string → option Z)
    (self : MemoryEmbeddingWorker.t)
    (clk1 clk2 : Db.Clock) (db : Db.Database) (entry : Db.QueueEntry)
    (v : list float) (t : Db.Table) :
  let message := Db.q_message entry in
  let vec := "[" +:+ Py.join "," (str_float <$> v) +:+ "]" in
  Db.queue db = [entry] →
  Db.visible (Db.now clk1) entry →
  EmbeddingService.embed failing (MemoryEmbeddingWorker.embedding self)
    (Db.m_content message) = None →
  EmbeddingService.embed working (MemoryEmbeddingWorker.embedding self)
    (Db.m_content message) = Some v →
  Db.tables db !! Db.m_table message = Some t →
  (∀ dim rows last, t ≠ Db.LongTerm dim rows last) →
  pgvector_in vec = Some (Db.table_dim t) →
  Db.now clk1 + 30 ≤ Db.now clk2 →
  let db1 :=
    (MemoryEmbeddingWorker._poll_once failing str_float pgvector_in self clk1
       db).1.2 in
  (∀ clk, Db.now clk < Db.now clk1 + 30 →
     MemoryEmbeddingWorker._poll_once other str_float pgvector_in self clk db1
     = (false, db1,
        [MemoryEmbeddingWorker.PgmqRead MemoryEmbeddingWorker.QUEUE_NAME
           MemoryEmbeddingWorker.VISIBILITY_TIMEOUT])) ∧
  let out :=
    MemoryEmbeddingWorker._poll_once working str_float pgvector_in self clk2
      db1 in
  out.1.1 = true ∧
  Db.queue out.1.2 = [] ∧
  Db.q_msg_id <$> Db.archive out.1.2
  = (Db.q_msg_id <$> Db.archive db) ++ [Db.q_msg_id entry] ∧
  (∀ name, name ≠ Db.m_table message →
     Db.tables out.1.2 !! name = Db.tables db !! name) ∧
  Db.tables out.1.2 !! Db.m_table message
  = Some
      match t with
      | Db.Daily dim rows last =>
          Db.Daily dim
            ((λ r, if Db.d_id r =? Db.m_id message
                   then {| Db.d_id := Db.d_id r;
                           Db.d_entry_date := Db.d_entry_date r;
                           Db.d_content := Db.d_content r;
                           Db.d_embedding := Some vec |}
                   else r) <$> rows)
            last
      | Db.Conversation dim rows last =>
          Db.Conversation dim
            ((λ r, if Db.c_id r =? Db.m_id message
                   then {| Db.c_id := Db.c_id r;
                           Db.c_session_key := Db.c_session_key r;
                           Db.c_role := Db.c_role r;
                           Db.c_content := Db.c_content r;
                           Db.c_embedding := Some vec |}
                   else r) <$> rows)
            last
      | Db.LongTerm _ _ _ => t
      end.
Proof.
  intros message vec Hq Hvis Hfail Hwork Ht Hnot Hdim Hlater db1.
  assert (Hdb1 : db1 =
    {| Db.tables := Db.tables db;
       Db.queue := [ {| Db.q_msg_id := Db.q_msg_id entry;
                        Db.q_vt := Db.now clk1 + 30;
                        Db.q_message := message |} ];
       Db.queue_last_id := Db.queue_last_id db;
       Db.archive := Db.archive db |}).
  { subst db1. unfold MemoryEmbeddingWorker._poll_once, Db.pgmq_read.
    rewrite Hq. simpl.
    destruct (Z.leb_spec (Db.q_vt entry) (Db.now clk1)) as [_|Hn];
      [|unfold Db.visible in Hvis; lia].
    simpl. fold message. now rewrite Hfail. }
  split.
  - intros clk Hearly. unfold MemoryEmbeddingWorker._poll_once.
    rewrite pgmq_read_none; [reflexivity|].
    rewrite Hdb1. simpl. repeat constructor. unfold Db.visible. simpl. lia.
  - rewrite Hdb1. unfold MemoryEmbeddingWorker._poll_once, Db.pgmq_read. simpl.
    destruct (Z.leb_spec (Db.now clk1 + 30) (Db.now clk2)) as [_|Hn]; [|lia].
    simpl. fold message. rewrite Hwork. fold vec.
    unfold Db.update_embedding. simpl. rewrite Ht.
    destruct t as [dim rows last|dim rows last|dim rows last];
      [|now destruct (Hnot dim rows last)|];
      rewrite Hdim; simpl; rewrite Z.eqb_refl; simpl;
      (rewrite filter_cons_False by (intros H; now apply H));
      (rewrite filter_cons_True by reflexivity);
      rewrite !filter_nil, fmap_app;
      (split; [reflexivity|]); (split; [reflexivity|]);
      (split; [reflexivity|]);
      (split; [intros name Hname; now rewrite lookup_insert_ne by done|]);
      rewrite lookup_insert_eq; reflexivity.
Qed.

(** ** The worker and the stored text *)

Lemma set_daily_fields vec rid r :
  Db.d_id (Db.set_daily vec rid r) = Db.d_id r ∧
  Db.d_entry_date (Db.set_daily vec rid r) = Db.d_entry_date r ∧
  Db.d_content (Db.set_daily vec rid r) = Db.d_content r.
Proof. unfold Db.set_daily. now destruct (_ =? _). Qed.

Lemma fold_left_fmap_same {A B : Type} (g : B → A → B) (f : A → A)
    (l : list A) :
  (∀ b x, g b (f x) = g b x) →
  ∀ b, fold_left g (f <$> l) b = fold_left g l b.
Proof.
  intros Hg. induction l as [|x l IH]; intros b; [reflexivity|].
  rewrite fmap_cons. simpl. now rewrite Hg, IH.
Qed.

Lemma daily_contents_set vec rid (l : list Db.DailyRow) :
  Db.d_content <$> (Db.set_daily vec rid <$> l) = Db.d_content <$> l.
Proof.
  rewrite <- list_fmap_compose. apply list_fmap_ext.
  intros i r _. apply set_daily_fields.
Qed.

Lemma read_today_embedding_step (self : PostgresMemoryStore.t)
    (clk : Db.Clock) (db db' : Db.Database) :
  Db.embedding_step (Db.tables db) (Db.tables db') →
  PostgresMemoryStore.read_today self clk db'
  = PostgresMemoryStore.read_today self clk db.
Proof.
  unfold PostgresMemoryStore.read_today.
  intros [-> | (name & vec & rid & t & Ht & ->)]; [reflexivity|].
  destruct (decide (name = PostgresMemoryStore.daily_table self)) as [->|Hne];
    [|now rewrite lookup_insert_ne].
  rewrite lookup_insert_eq, Ht.
  destruct t as [dim rows n|dim rows n|dim rows n]; simpl; try reflexivity.
  rewrite filter_fmap_comm
    by (intros r; now rewrite (proj1 (proj2 (set_daily_fields vec rid r)))).
  rewrite order_by_fmap
    by (intros a b; now rewrite !(proj1 (set_daily_fields vec rid _))).
  destruct (Db.order_by _ _) as [|r rs] eqn:E; [reflexivity|].
  rewrite daily_contents_set. reflexivity.
Qed.

Lemma get_recent_memories_embedding_step (self : PostgresMemoryStore.t)
    (clk : Db.Clock) (days : Z) (db db' : Db.Database) :
  Db.embedding_step (Db.tables db) (Db.tables db') →
  PostgresMemoryStore.get_recent_memories self clk days db'
  = PostgresMemoryStore.get_recent_memories self clk days db.
Proof.
  unfold PostgresMemoryStore.get_recent_memories.
  intros [-> | (name & vec & rid & t & Ht & ->)]; [reflexivity|].
  destruct (decide (name = PostgresMemoryStore.daily_table self)) as [->|Hne];
    [|now rewrite lookup_insert_ne].
  rewrite lookup_insert_eq, Ht.
  destruct t as [dim rows n|dim rows n|dim rows n]; simpl; try reflexivity.
  rewrite filter_fmap_comm
    by (intros r; now rewrite (proj1 (proj2 (set_daily_fields vec rid r)))).
  rewrite order_by_fmap.
  2:{ intros a b.
      destruct (set_daily_fields vec rid a) as (-> & -> & _).
      now destruct (set_daily_fields vec rid b) as (-> & -> & _). }
  rewrite fold_left_fmap_same
    by (intros acc x; now destruct (set_daily_fields vec rid x) as (_ & -> & ->)).
  now destruct (Db.order_by _ _) as [|r rs].
Qed.

Lemma get_memory_context_embedding_step (self : PostgresMemoryStore.t)
    (clk : Db.Clock) (db db' : Db.Database) :
  Db.embedding_step (Db.tables db) (Db.tables db') →
  PostgresMemoryStore.get_memory_context self clk db'
  = PostgresMemoryStore.get_memory_context self clk db.
Proof.
  intros Hstep. unfold PostgresMemoryStore.get_memory_context.
  now rewrite (read_long_term_embedding_step self db db' Hstep),
    (read_today_embedding_step self clk db db' Hstep).
Qed.

(** X12. The embedding worker never changes the stored text: after any
    run of the worker (any number of polls, at any times, the embedding
    API answering or failing as it likes) [read_today], [read_long_term],
    [get_recent_memories] and [get_memory_context] of a store return what
    they returned before. *)
Theorem worker_run_preserves_reads {float : Type} (str_float : float → string)
    (pgvector_in : string → option Z) (worker : MemoryEmbeddingWorker.t)
    (self : PostgresMemoryStore.t) (clk : Db.Clock) (days : Z)
    (ticks : list (Db.Clock *
                   (EmbeddingService.t → list string
                    → option (list (list float)))))
    (db : Db.Database) :
  let db' := MemoryEmbeddingWorker._run str_float pgvector_in worker ticks db in
  PostgresMemoryStore.read_today self clk db'
  = PostgresMemoryStore.read_today self clk db ∧
  PostgresMemoryStore.read_long_term self db'
  = PostgresMemoryStore.read_long_term self db ∧
  PostgresMemoryStore.get_recent_memories self clk days db'
  = PostgresMemoryStore.get_recent_memories self clk days db ∧
  PostgresMemoryStore.get_memory_context self clk db'
  = PostgresMemoryStore.get_memory_context self clk db.
Proof.
  unfold MemoryEmbeddingWorker._run. revert db.
  induction ticks as [|[tick_clk api] ticks IH]; intros db; [easy|].
  cbn [fold_left]. cbn [fst snd].
  pose proof (poll_once_embedding_step api str_float pgvector_in worker tick_clk db)
    as Hstep.
  destruct (IH (MemoryEmbeddingWorker._poll_once api str_float pgvector_in worker
                  tick_clk db).1.2) as (H1 & H2 & H3 & H4).
  cbn zeta in *.
  rewrite H1, H2, H3, H4.
  rewrite (read_today_embedding_step self clk _ _ Hstep),
    (read_long_term_embedding_step self _ _ Hstep),
    (get_recent_memories_embedding_step self clk days _ _ Hstep),
    (get_memory_context_embedding_step self clk _ _ Hstep).
  easy.
Qed.

(** ** The further properties at concrete inputs *)

Lemma on_outbound_second_is_dropped_witness :
  let st :=
    {| OpenAPIChannel.futures := {[ 0%nat := OpenAPIChannel.Pending ]};
       OpenAPIChannel._pending_responses := {[ "u1:9a8b7c6d" := 0%nat ]};
       OpenAPIChannel.published := [] |} in
  let first := {| out_channel := "openapi"; out_chat_id := "u1:9a8b7c6d";
                  out_content := "pong" |} in
  let second := {| out_channel := "openapi"; out_chat_id := "u1:9a8b7c6d";
                   out_content := "pong again" |} in
  OpenAPIChannel.futures
    (OpenAPIChannel._on_outbound second (OpenAPIChannel._on_outbound first st))
    !! 0%nat = Some (OpenAPIChannel.Done "pong").
Proof.
  intros st first second.
  rewrite (on_outbound_second_is_dropped st first second eq_refl).
  vm_compute. reflexivity.
Defined.

Lemma stop_cancels_registered_pending_witness :
  let st :=
    {| OpenAPIChannel.futures :=
         {[ 0%nat := OpenAPIChannel.Pending;
            1%nat := OpenAPIChannel.Done "pong" ]};
       OpenAPIChannel._pending_responses := {[ "u1:9a8b7c6d" := 0%nat ]};
       OpenAPIChannel.published := [] |} in
  OpenAPIChannel.futures (OpenAPIChannel.stop st) !! 0%nat
  = Some OpenAPIChannel.Cancelled ∧
  OpenAPIChannel.futures (OpenAPIChannel.stop st) !! 1%nat
  = Some (OpenAPIChannel.Done "pong").
Proof.
  intros st.
  destruct (stop_cancels_registered_pending st) as [_ Hf]. split.
  - apply (proj1 (Hf 0%nat)); [reflexivity|].
    exists "u1:9a8b7c6d". reflexivity.
  - rewrite (proj2 (Hf 1%nat)); [reflexivity|]. left. discriminate.
Defined.

Lemma non_stream_reply_witness :
  let other := {| out_channel := "openapi"; out_chat_id := "u2:1f2e3d4c";
                  out_content := "not for u1" |} in
  let reply := {| out_channel := "openapi"; out_chat_id := "u1:9a8b7c6d";
                  out_content := "pongpongpo" |} in
  let out :=
    OpenAPIChannel._handle_non_stream Examples.config_open 1762214400
      ([OpenAPIChannel.Outbound other]
       ++ OpenAPIChannel.Outbound reply :: [OpenAPIChannel.Stop])
      "chatcmpl-0123456789abcdef01234567" "u1:9a8b7c6d" "u1" "pingpingpi"
      OpenAPIChannel.initial in
  OpenAPIChannel._pending_responses out.2 !! "u1:9a8b7c6d" = None ∧
  ∃ data, out.1 = OpenAPIChannel.JsonResponse 200 data ∧
          OpenAPIChannel.choice0 "message" data
          = Some (OpenAPIChannel.JObj
                    [("role", OpenAPIChannel.JStr "assistant");
                     ("content", OpenAPIChannel.JStr "pongpongpo")]) ∧
          OpenAPIChannel.jfield "usage" data
          = Some (OpenAPIChannel.JObj
                    [("prompt_tokens", OpenAPIChannel.JInt 2);
                     ("completion_tokens", OpenAPIChannel.JInt 2);
                     ("total_tokens", OpenAPIChannel.JInt 5)]).
Proof.
  intros other reply out.
  assert (Hout : ∀ m,
            OpenAPIChannel.Outbound m ∈ [OpenAPIChannel.Outbound other] →
            out_chat_id m ≠ "u1:9a8b7c6d").
  { intros m Hin. apply list_elem_of_singleton in Hin.
    injection Hin as ->. simpl. discriminate. }
  assert (Hstop : OpenAPIChannel.Stop ∉ [OpenAPIChannel.Outbound other]).
  { intros Hin. apply list_elem_of_singleton in Hin. discriminate. }
  destruct (non_stream_reply Examples.config_open 1762214400
              "chatcmpl-0123456789abcdef01234567" "u1:9a8b7c6d" "u1"
              "pingpingpi" OpenAPIChannel.initial
              [OpenAPIChannel.Outbound other] reply [OpenAPIChannel.Stop]
              Hout Hstop eq_refl) as (Hresp & Hgone & _).
  split; [exact Hgone|]. eexists. split; [exact Hresp|].
  split; reflexivity.
Defined.

Lemma non_stream_cancelled_witness :
  (OpenAPIChannel._handle_non_stream Examples.config_open 1762214400
     ([] ++ OpenAPIChannel.Stop :: [])
     "chatcmpl-0123456789abcdef01234567" "u1:9a8b7c6d" "u1" "ping"
     OpenAPIChannel.initial).1
  = OpenAPIChannel.JsonResponse 499
      (OpenAPIChannel.JObj
         [("error",
           OpenAPIChannel.JObj
             [("message", OpenAPIChannel.JStr "Request cancelled");
              ("type", OpenAPIChannel.JStr "cancelled_error")])]).
Proof.
  apply (non_stream_cancelled Examples.config_open 1762214400
           "chatcmpl-0123456789abcdef01234567" "u1:9a8b7c6d" "u1" "ping"
           OpenAPIChannel.initial [] []).
  - intros m Hin. inversion Hin.
  - intros Hin. inversion Hin.
Defined.

Lemma done_future_is_final_witness :
  let st :=
    {| OpenAPIChannel.futures := {[ 0%nat := OpenAPIChannel.Done "pong" ]};
       OpenAPIChannel._pending_responses := {[ "u1:9a8b7c6d" := 0%nat ]};
       OpenAPIChannel.published := [] |} in
  let late := {| out_channel := "openapi"; out_chat_id := "u1:9a8b7c6d";
                 out_content := "late" |} in
  OpenAPIChannel.futures
    (fold_left (λ s e, OpenAPIChannel.deliver e s)
       [OpenAPIChannel.Outbound late; OpenAPIChannel.Stop] st) !! 0%nat
  = Some (OpenAPIChannel.Done "pong").
Proof.
  intros st late.
  apply (done_future_is_final _ st 0%nat (OpenAPIChannel.Done "pong"));
    [reflexivity | discriminate].
Defined.

Lemma client_error_leaves_channel_untouched_witness :
  let env :=
    {| OpenAPIChannel.created := 1762214400;
       OpenAPIChannel.uuid_request := "0123456789abcdef0123456789abcdef";
       OpenAPIChannel.uuid_chat := "9a8b7c6d5e4f30211203f4e5d6c7b8a9";
       OpenAPIChannel.events := []; OpenAPIChannel.chunks := [] |} in
  let request :=
    {| OpenAPIChannel.headers := []; OpenAPIChannel.body := None |} in
  ∃ data st',
    OpenAPIChannel._handle_chat_completions (λ _, "") (λ _, true) (λ _, "")
      Examples.config_open env request OpenAPIChannel.initial
    = Some (OpenAPIChannel.JsonResponse 400 data, st') ∧
    st' = OpenAPIChannel.initial.
Proof.
  intros env request. eexists. exists OpenAPIChannel.initial.
  split; [reflexivity|].
  eapply (client_error_leaves_channel_untouched (λ _, "") (λ _, true)
            (λ _, "") Examples.config_open env request);
    [reflexivity | left; reflexivity].
Defined.

Lemma last_user_message_wins_witness :
  OpenAPIChannel.last_user_content
    (rev ([OpenAPIChannel.JStr "not a message";
           OpenAPIChannel.JObj [("role", OpenAPIChannel.JStr "user");
                                ("content", OpenAPIChannel.JStr "first")]]
          ++ OpenAPIChannel.JObj [("role", OpenAPIChannel.JStr "user");
                                  ("content", OpenAPIChannel.JStr "second")]
          :: [OpenAPIChannel.JObj
                [("role", OpenAPIChannel.JStr "assistant");
                 ("content", OpenAPIChannel.JStr "reply")]]))
  = Some "second".
Proof.
  apply last_user_message_wins; [reflexivity | reflexivity |].
  repeat constructor. eexists. split; reflexivity.
Defined.

Lemma stream_ends_at_final_chunk_witness :
  let hel := {| chunk_content := "hel"; is_final := false;
                finish_reason := None |} in
  let lo := {| chunk_content := "lo"; is_final := true;
               finish_reason := Some "length" |} in
  let extra := {| chunk_content := "!"; is_final := false;
                  finish_reason := None |} in
  ∃ response_headers first second,
    (OpenAPIChannel._handle_stream (λ _, "{}") Examples.config_open 1762214400
       ([hel] ++ lo :: [extra]) "chatcmpl-0123456789abcdef01234567"
       "u1:9a8b7c6d" "u1" "ping" OpenAPIChannel.initial).1
    = OpenAPIChannel.StreamResponse 200 response_headers
        [first; second; "data: [DONE]

"].
Proof.
  intros hel lo extra.
  destruct (stream_ends_at_final_chunk (λ _, "{}") Examples.config_open
              1762214400 "chatcmpl-0123456789abcdef01234567" [hel] lo [extra]
              "u1:9a8b7c6d" "u1" "ping" OpenAPIChannel.initial)
    as ((response_headers & Hresp) & _).
  - repeat constructor.
  - reflexivity.
  - exists response_headers. do 2 eexists. exact Hresp.
Defined.

Lemma stream_without_final_chunk_times_out_witness :
  let hel := {| chunk_content := "hel"; is_final := false;
                finish_reason := None |} in
  ∃ response_headers first timeout_frame,
    (OpenAPIChannel._handle_stream (λ _, "{}") Examples.config_open 1762214400
       [hel] "chatcmpl-0123456789abcdef01234567"
       "u1:9a8b7c6d" "u1" "ping" OpenAPIChannel.initial).1
    = OpenAPIChannel.StreamResponse 200 response_headers
        [first; timeout_frame; "data: [DONE]

"].
Proof.
  intros hel.
  destruct (stream_without_final_chunk_times_out (λ _, "{}")
              Examples.config_open 1762214400
              "chatcmpl-0123456789abcdef01234567" [hel]
              "u1:9a8b7c6d" "u1" "ping" OpenAPIChannel.initial)
    as (response_headers & Hresp).
  - repeat constructor.
  - exists response_headers. do 2 eexists. exact Hresp.
Defined.

Lemma poll_once_nothing_visible_witness :
  MemoryEmbeddingWorker._poll_once Examples.api_up pretty Examples.pgvector_in Examples.worker3
    Examples.clock0
    (PostgresMemoryStore._ensure_schema Examples.store3 Db.empty)
  = (false, PostgresMemoryStore._ensure_schema Examples.store3 Db.empty,
     [MemoryEmbeddingWorker.PgmqRead "memory_embedding" 30]).
Proof.
  apply (poll_once_nothing_visible Examples.api_up pretty Examples.pgvector_in
           Examples.worker3).
  constructor.
Defined.

Lemma poll_once_retries_after_timeout_witness :
  let db := Examples.db_note Examples.store3 in
  let later := {| Db.now := 1032; Db.today := 739924 |} in
  let db1 :=
    (MemoryEmbeddingWorker._poll_once Examples.api_down pretty
       Examples.pgvector_in Examples.worker3 Examples.clock1 db).1.2 in
  let out :=
    MemoryEmbeddingWorker._poll_once Examples.api_up pretty
      Examples.pgvector_in Examples.worker3 later db1 in
  out.1.1 = true ∧ Db.queue out.1.2 = [] ∧
  Db.tables out.1.2 !! "memory_daily_dim3"
  = Some (Db.Daily 3 [ {| Db.d_id := 1; Db.d_entry_date := 739924;
                          Db.d_content := "pizza is great";
                          Db.d_embedding := Some "[1,1,1]" |} ] 1).
Proof.
  intros db later db1 out.
  set (entry :=
    {| Db.q_msg_id := 1; Db.q_vt := 1000;
       Db.q_message :=
         {| Db.m_table := "memory_daily_dim3"; Db.m_id := 1;
            Db.m_content := "pizza is great"; Db.m_dimensions := 3 |} |}).
  set (t := Db.Daily 3
              [ {| Db.d_id := 1; Db.d_entry_date := 739924;
                   Db.d_content := "pizza is great";
                   Db.d_embedding := None |} ] 1).
  destruct (poll_once_retries_after_timeout Examples.api_down Examples.api_up
              Examples.api_up pretty Examples.pgvector_in Examples.worker3
              Examples.clock1 later db entry [1; 1; 1] t)
    as (_ & Hres & Hq & _ & _ & Hrow).
  - vm_compute. reflexivity.
  - unfold Db.visible. simpl. lia.
  - reflexivity.
  - reflexivity.
  - vm_compute. reflexivity.
  - intros dim rows last H. discriminate H.
  - vm_compute. reflexivity.
  - simpl. lia.
  - split; [exact Hres|]. split; [exact Hq|]. exact Hrow.
Defined.

(** * Further properties of the memory stores *)

(** ** Joins and translated text *)






(** ** Names of the daily files *)

Lemma length_zeros (n : nat) : String.length (Date.zeros n) = n.
Proof. induction n as [|n IH]; [reflexivity|]. simpl. now rewrite IH. Qed.

Lemma length_pad (width : nat) (n : Z) :
  (width ≤ String.length (Date.pad width n))%nat.
Proof.
  unfold Date.pad. rewrite length_append, length_zeros. lia.
Qed.

(** No daily file is [MEMORY.md]: a date takes ten characters or more. *)
Lemma daily_file_not_memory_file (d : Date.date) :
  Date.isoformat d +:+ ".md" ≠ MemoryStore.memory_file.
Proof.
  intros H. apply (f_equal String.length) in H.
  rewrite length_append in H. unfold Date.isoformat in H.
  destruct (Date.civil d) as [[yy mm] dd].
  rewrite !length_append in H.
  pose proof (length_pad 4 yy). pose proof (length_pad 2 mm).
  pose proof (length_pad 2 dd). simpl in H. lia.
Qed.

(** ** The file store: appends of one day *)





(** ** The relational store: what a read depends on *)

Lemma pg_read_today_tables (self : PostgresMemoryStore.t) (clk : Db.Clock)
    (db db' : Db.Database) :
  Db.tables db' !! PostgresMemoryStore.daily_table self
  = Db.tables db !! PostgresMemoryStore.daily_table self →
  PostgresMemoryStore.read_today self clk db'
  = PostgresMemoryStore.read_today self clk db.
Proof. unfold PostgresMemoryStore.read_today. now intros ->. Qed.

Lemma pg_get_recent_memories_tables (self : PostgresMemoryStore.t)
    (clk : Db.Clock) (days : Z) (db db' : Db.Database) :
  Db.tables db' !! PostgresMemoryStore.daily_table self
  = Db.tables db !! PostgresMemoryStore.daily_table self →
  PostgresMemoryStore.get_recent_memories self clk days db'
  = PostgresMemoryStore.get_recent_memories self clk days db.
Proof. unfold PostgresMemoryStore.get_recent_memories. now intros ->. Qed.

Lemma pg_read_long_term_tables (self : PostgresMemoryStore.t)
    (db db' : Db.Database) :
  Db.tables db' !! PostgresMemoryStore.long_term_table self
  = Db.tables db !! PostgresMemoryStore.long_term_table self →
  PostgresMemoryStore.read_long_term self db'
  = PostgresMemoryStore.read_long_term self db.
Proof. unfold PostgresMemoryStore.read_long_term. now intros ->. Qed.

Lemma pg_get_memory_context_tables (self : PostgresMemoryStore.t)
    (clk : Db.Clock) (db db' : Db.Database) :
  Db.tables db' !! PostgresMemoryStore.daily_table self
  = Db.tables db !! PostgresMemoryStore.daily_table self →
  Db.tables db' !! PostgresMemoryStore.long_term_table self
  = Db.tables db !! PostgresMemoryStore.long_term_table self →
  PostgresMemoryStore.get_memory_context self clk db'
  = PostgresMemoryStore.get_memory_context self clk db.
Proof.
  intros Hd Hl. unfold PostgresMemoryStore.get_memory_context.
  now rewrite (pg_read_long_term_tables self db db' Hl),
    (pg_read_today_tables self clk db db' Hd).
Qed.

(** What [append_today] and [write_long_term] do to the tables. *)
Lemma pg_append_today_tables (self : PostgresMemoryStore.t) (clk : Db.Clock)
    (x : string) (db db' : Db.Database) :
  PostgresMemoryStore.append_today self clk x db = Some db' →
  ∃ dim rows last,
    Db.tables db !! PostgresMemoryStore.daily_table self
      = Some (Db.Daily dim rows last) ∧
    Db.tables db'
    = <[PostgresMemoryStore.daily_table self :=
          Db.Daily dim
            (rows ++ [ {| Db.d_id := last + 1; Db.d_entry_date := Db.today clk;
                          Db.d_content := x; Db.d_embedding := None |} ])
            (last + 1)]> (Db.tables db).
Proof.
  unfold PostgresMemoryStore.append_today.
  destruct (Db.tables db !! _) as [[dim rows last| |]|] eqn:Ht; try discriminate.
  destruct (Db.text_ok x); [|discriminate].
  intros H. injection H as <-. exists dim, rows, last. now split.
Qed.

Lemma pg_write_long_term_tables (self : PostgresMemoryStore.t)
    (clk : Db.Clock) (x : string) (db db' : Db.Database) :
  PostgresMemoryStore.write_long_term self clk x db = Some db' →
  ∃ t, Db.tables db'
       = <[PostgresMemoryStore.long_term_table self := t]> (Db.tables db).
Proof.
  unfold PostgresMemoryStore.write_long_term.
  destruct (Db.tables db !! _) as [[|dim rows last|]|] eqn:Ht; try discriminate.
  destruct (_ && _); [|discriminate].
  intros H. injection H as <-. eexists. reflexivity.
Qed.

(** X15. Daily notes and long-term memory do not touch each other, in
    either backend: [append_today] leaves what [read_long_term] returns,
    and [write_long_term] leaves what [read_today] and
    [get_recent_memories] return. *)
Theorem notes_and_long_term_are_independent (x : string) :
  (∀ (today : Date.date) (fs : gmap string string),
     MemoryStore.read_long_term (MemoryStore.append_today today x fs)
     = MemoryStore.read_long_term fs) ∧
  (∀ (today : Date.date) (days : Z) (fs : gmap string string),
     MemoryStore.read_today today (MemoryStore.write_long_term x fs)
     = MemoryStore.read_today today fs ∧
     MemoryStore.get_recent_memories today days (MemoryStore.write_long_term x fs)
     = MemoryStore.get_recent_memories today days fs) ∧
  (∀ (self : PostgresMemoryStore.t) (clk : Db.Clock) (db db' : Db.Database),
     PostgresMemoryStore.append_today self clk x db = Some db' →
     PostgresMemoryStore.read_long_term self db'
     = PostgresMemoryStore.read_long_term self db) ∧
  (∀ (self : PostgresMemoryStore.t) (clk clk' : Db.Clock) (days : Z)
     (db db' : Db.Database),
     PostgresMemoryStore.write_long_term self clk x db = Some db' →
     PostgresMemoryStore.read_today self clk' db'
     = PostgresMemoryStore.read_today self clk' db ∧
     PostgresMemoryStore.get_recent_memories self clk' days db'
     = PostgresMemoryStore.get_recent_memories self clk' days db).
Proof.
  split; [|split; [|split]].
  - intros today fs.
    unfold MemoryStore.read_long_term, MemoryStore.append_today.
    rewrite read_text_write_text_ne; [reflexivity|].
    apply daily_file_not_memory_file.
  - intros today days fs. split.
    + unfold MemoryStore.read_today, MemoryStore.write_long_term.
      rewrite read_text_write_text_ne; [reflexivity|].
      intros H. symmetry in H. revert H. apply daily_file_not_memory_file.
    + unfold MemoryStore.get_recent_memories. f_equal.
      apply flat_map_ext. intros i.
      unfold MemoryStore.recent_file, MemoryStore.write_long_term.
      rewrite read_text_write_text_ne; [reflexivity|].
      intros H. symmetry in H. revert H. apply daily_file_not_memory_file.
  - intros self clk db db' H.
    destruct (pg_append_today_tables _ _ _ _ _ H) as (dim & rows & last & _ & Ht).
    apply pg_read_long_term_tables. rewrite Ht.
    apply lookup_insert_ne. apply table_names_distinct.
  - intros self clk clk' days db db' H.
    destruct (pg_write_long_term_tables _ _ _ _ _ H) as (t & Ht).
    assert (Hd : Db.tables db' !! PostgresMemoryStore.daily_table self
                 = Db.tables db !! PostgresMemoryStore.daily_table self).
    { rewrite Ht. apply lookup_insert_ne.
      intros E. symmetry in E. revert E. apply table_names_distinct. }
    split.
    + now apply pg_read_today_tables.
    + now apply pg_get_recent_memories_tables.
Qed.

(** ** The relational store: appends of one day *)





(** ** The latest note and the memory context *)




(** * Properties of the conversation ingestor *)

(** The conversation table is no table of notes, of this store or of any
    other store on the same database. *)
Lemma conversation_table_not_notes (s s' : PostgresMemoryStore.t) :
  PostgresMemoryStore.conversation_table s ≠ PostgresMemoryStore.daily_table s' ∧
  PostgresMemoryStore.conversation_table s
    ≠ PostgresMemoryStore.long_term_table s'.
Proof.
  unfold PostgresMemoryStore.daily_table, PostgresMemoryStore.long_term_table,
    PostgresMemoryStore.conversation_table.
  split; intros H; cbv [String.append] in H; discriminate.
Qed.

(** Nothing was done in the transaction: rolling back gives the database
    back. *)
Lemma rolled_back_same (table : string) (db : Db.Database) :
  ConversationIngestor.rolled_back table db db = db.
Proof.
  unfold ConversationIngestor.rolled_back.
  destruct db as [ts q qid ar]. cbn [Db.tables Db.queue Db.queue_last_id Db.archive].
  f_equal.
  destruct (ts !! table) as [[| |dim rows last]|] eqn:Ht; try reflexivity.
  now apply insert_id.
Qed.

(** [ingest] by the two turns of its loop. *)
Lemma ingest_by_role (self : ConversationIngestor.t) (clk : Db.Clock)
    (session_key user_msg assistant_msg : string) (db : Db.Database) :
  ConversationIngestor.ingest self clk session_key user_msg assistant_msg db
  = match ConversationIngestor.ingest_role self clk session_key
            ("user", user_msg) db with
    | Some db1 =>
        match ConversationIngestor.ingest_role self clk session_key
                ("assistant", assistant_msg) db1 with
        | Some db2 => db2
        | None =>
            ConversationIngestor.rolled_back
              (PostgresMemoryStore.conversation_table
                 (ConversationIngestor._store self)) db1 db
        end
    | None => db
    end.
Proof.
  unfold ConversationIngestor.ingest. cbn [fold_left].
  destruct (ConversationIngestor.ingest_role self clk session_key
              ("user", user_msg) db) as [db1|]; cbv beta iota.
  - now destruct (ConversationIngestor.ingest_role self clk session_key
                    ("assistant", assistant_msg) db1).
  - apply rolled_back_same.
Qed.

Lemma ingest_role_tables (self : ConversationIngestor.t) (clk : Db.Clock)
    (session_key : string) (rc : string * string) (db db' : Db.Database) :
  ConversationIngestor.ingest_role self clk session_key rc db = Some db' →
  Db.tables db' = Db.tables db ∨
  ∃ t, Db.tables db'
       = <[PostgresMemoryStore.conversation_table
             (ConversationIngestor._store self) := t]> (Db.tables db).
Proof.
  unfold ConversationIngestor.ingest_role. destruct rc as [role content].
  destruct (negb (Py.truthy_str content)).
  - intros H. injection H as <-. now left.
  - destruct (Db.tables db !! _) as [[| |dim rows last]|]; try discriminate.
    destruct (_ && _); [|discriminate].
    intros H. injection H as <-. right. eexists. reflexivity.
Qed.

Lemma ingest_tables (self : ConversationIngestor.t) (clk : Db.Clock)
    (session_key user_msg assistant_msg : string) (db : Db.Database) :
  let db' :=
    ConversationIngestor.ingest self clk session_key user_msg assistant_msg db in
  Db.tables db' = Db.tables db ∨
  ∃ t, Db.tables db'
       = <[PostgresMemoryStore.conversation_table
             (ConversationIngestor._store self) := t]> (Db.tables db).
Proof.
  cbv zeta. rewrite ingest_by_role.
  destruct (ConversationIngestor.ingest_role self clk session_key
              ("user", user_msg) db) as [db1|] eqn:H1; [|now left].
  destruct (ConversationIngestor.ingest_role self clk session_key
              ("assistant", assistant_msg) db1) as [db2|] eqn:H2.
  - destruct (ingest_role_tables _ _ _ _ _ _ H1) as [E1 | [t1 E1]];
      destruct (ingest_role_tables _ _ _ _ _ _ H2) as [E2 | [t2 E2]];
      rewrite E2, E1; eauto.
    right. exists t2. apply insert_insert_eq.
  - unfold ConversationIngestor.rolled_back. cbn [Db.tables].
    destruct (Db.tables db !! _) as [[| |dim rows last]|]; eauto.
    destruct (Db.tables db1 !! _) as [[| |dim1 rows1 last1]|]; eauto.
Qed.

(** X17. [ingest] stores the halves of a turn that are not empty, the
    user's first: each becomes one row of the conversation table, with
    the next id of the sequence, the session key, the role and the
    content, and no embedding; and for each one message is queued that
    names the table and the id of the row and carries the text
    [role: content] and the dimension of the store.  An empty half is
    skipped and takes no id.  (The session key and the two halves hold no
    NUL.) *)
Theorem ingest_stores_nonempty_halves (self : ConversationIngestor.t)
    (clk : Db.Clock) (session_key user_msg assistant_msg : string)
    (db : Db.Database) dim rows last :
  let table :=
    PostgresMemoryStore.conversation_table (ConversationIngestor._store self) in
  let dims :=
    PostgresMemoryStore.dimensions (ConversationIngestor._store self) in
  Db.tables db !! table = Some (Db.Conversation dim rows last) →
  Db.text_ok session_key = true →
  Db.text_ok user_msg = true →
  Db.text_ok assistant_msg = true →
  let kept :=
    filter (λ rc, rc.2 ≠ "")
      [("user", user_msg); ("assistant", assistant_msg)] in
  let row (i : Z) (rc : string * string) :=
    {| Db.c_id := last + i; Db.c_session_key := session_key;
       Db.c_role := rc.1; Db.c_content := rc.2; Db.c_embedding := None |} in
  let entry (i : Z) (rc : string * string) :=
    {| Db.q_msg_id := Db.queue_last_id db + i; Db.q_vt := Db.now clk;
       Db.q_message :=
         {| Db.m_table := table; Db.m_id := last + i;
            Db.m_content := rc.1 +:+ ": " +:+ rc.2;
            Db.m_dimensions := dims |} |} in
  let db' :=
    ConversationIngestor.ingest self clk session_key user_msg assistant_msg db in
  Db.archive db' = Db.archive db ∧
  match kept with
  | [] => db' = db
  | [rc] =>
      Db.tables db'
      = <[table := Db.Conversation dim (rows ++ [row 1 rc]) (last + 1)]>
          (Db.tables db) ∧
      Db.queue db' = Db.queue db ++ [entry 1 rc] ∧
      Db.queue_last_id db' = Db.queue_last_id db + 1
  | rc1 :: rc2 :: _ =>
      Db.tables db'
      = <[table := Db.Conversation dim (rows ++ [row 1 rc1; row 2 rc2])
                     (last + 2)]> (Db.tables db) ∧
      Db.queue db' = Db.queue db ++ [entry 1 rc1; entry 2 rc2] ∧
      Db.queue_last_id db' = Db.queue_last_id db + 2
  end.
Proof.
  intros table dims Ht Hkey Hu Ha kept row entry db'.
  subst db' kept. rewrite ingest_by_role.
  unfold ConversationIngestor.ingest_role. fold table. fold dims.
  rewrite Hkey, Hu, Ha. cbn [andb Db.text_ok].
  replace (Db.text_ok "user") with true by reflexivity.
  replace (Db.text_ok "assistant") with true by reflexivity.
  cbn [andb].
  destruct user_msg as [|c1 u]; destruct assistant_msg as [|c2 a];
    cbn [Py.truthy_str negb].
  - split; reflexivity.
  - rewrite Ht. rewrite filter_cons_False by (intros H; now apply H).
    rewrite filter_cons_True by done. rewrite filter_nil.
    cbn. repeat split; reflexivity.
  - rewrite Ht. rewrite filter_cons_True by done.
    rewrite filter_cons_False by (intros H; now apply H).
    cbn. repeat split; reflexivity.
  - rewrite Ht. rewrite !filter_cons_True by done.
    cbn [Db.tables Db.pgmq_send Db.with_tables Db.queue Db.queue_last_id
         Db.archive].
    rewrite lookup_insert_eq.
    cbn [Db.tables Db.pgmq_send Db.with_tables Db.queue Db.queue_last_id
         Db.archive fst snd].
    rewrite insert_insert_eq, <- !app_assoc.
    replace (last + 1 + 1) with (last + 2) by lia.
    replace (Db.queue_last_id db + 1 + 1) with (Db.queue_last_id db + 2) by lia.
    repeat split; reflexivity.
Qed.

(** X18. Ingesting a conversation never changes the notes: after
    [ingest], whether it stored something or failed, [read_today],
    [read_long_term], [get_recent_memories] and [get_memory_context] of
    any store on the database return what they returned before. *)
Theorem ingest_preserves_notes (self : ConversationIngestor.t)
    (store : PostgresMemoryStore.t) (clk clk' : Db.Clock)
    (session_key user_msg assistant_msg : string) (days : Z)
    (db : Db.Database) :
  let db' :=
    ConversationIngestor.ingest self clk session_key user_msg assistant_msg db in
  PostgresMemoryStore.read_today store clk' db'
  = PostgresMemoryStore.read_today store clk' db ∧
  PostgresMemoryStore.read_long_term store db'
  = PostgresMemoryStore.read_long_term store db ∧
  PostgresMemoryStore.get_recent_memories store clk' days db'
  = PostgresMemoryStore.get_recent_memories store clk' days db ∧
  PostgresMemoryStore.get_memory_context store clk' db'
  = PostgresMemoryStore.get_memory_context store clk' db.
Proof.
  intros db'.
  destruct (conversation_table_not_notes (ConversationIngestor._store self)
              store) as [Hd Hl].
  assert (Hdaily : Db.tables db' !! PostgresMemoryStore.daily_table store
                   = Db.tables db !! PostgresMemoryStore.daily_table store).
  { destruct (ingest_tables self clk session_key user_msg assistant_msg db)
      as [E | [t E]]; fold db' in E; rewrite E; [reflexivity|].
    now apply lookup_insert_ne. }
  assert (Hlong : Db.tables db' !! PostgresMemoryStore.long_term_table store
                  = Db.tables db !! PostgresMemoryStore.long_term_table store).
  { destruct (ingest_tables self clk session_key user_msg assistant_msg db)
      as [E | [t E]]; fold db' in E; rewrite E; [reflexivity|].
    now apply lookup_insert_ne. }
  split; [now apply pg_read_today_tables|].
  split; [now apply pg_read_long_term_tables|].
  split; [now apply pg_get_recent_memories_tables|].
  now apply pg_get_memory_context_tables.
Qed.

(** X19. [ingest] never fails and never half-writes.  A turn with two
    empty halves leaves the database as it is.  So does every turn on a
    database without the conversation table of the store, and every turn
    whose session key or whose first half to store holds a NUL: the
    exception is logged.  When the user's half is stored and the
    assistant's half then holds a NUL, the transaction is rolled back: no
    row and no message is kept, but the table and the queue have each
    used up one id. *)
Theorem ingest_failure_stores_nothing (self : ConversationIngestor.t)
    (clk : Db.Clock) (session_key : string) (db : Db.Database) :
  let table :=
    PostgresMemoryStore.conversation_table (ConversationIngestor._store self) in
  ConversationIngestor.ingest self clk session_key "" "" db = db ∧
  ((∀ dim rows last,
      Db.tables db !! table ≠ Some (Db.Conversation dim rows last)) →
   ∀ user_msg assistant_msg,
     ConversationIngestor.ingest self clk session_key user_msg assistant_msg db
     = db) ∧
  (Db.text_ok session_key = false →
   ∀ user_msg assistant_msg,
     ConversationIngestor.ingest self clk session_key user_msg assistant_msg db
     = db) ∧
  (∀ user_msg assistant_msg,
     Db.text_ok user_msg = false →
     ConversationIngestor.ingest self clk session_key user_msg assistant_msg db
     = db) ∧
  (∀ assistant_msg,
     Db.text_ok assistant_msg = false →
     ConversationIngestor.ingest self clk session_key "" assistant_msg db
     = db) ∧
  (∀ user_msg assistant_msg dim rows last,
     Db.tables db !! table = Some (Db.Conversation dim rows last) →
     Db.text_ok session_key = true →
     user_msg ≠ "" →
     Db.text_ok user_msg = true →
     Db.text_ok assistant_msg = false →
     ConversationIngestor.ingest self clk session_key user_msg assistant_msg db
     = {| Db.tables :=
            <[table := Db.Conversation dim rows (last + 1)]> (Db.tables db);
          Db.queue := Db.queue db;
          Db.queue_last_id := Db.queue_last_id db + 1;
          Db.archive := Db.archive db |}).
Proof.
  intros table.
  assert (Hnul : ∀ s, Db.text_ok s = false → Py.truthy_str s = true).
  { intros s Hs. now destruct s. }
  split; [|split; [|split; [|split; [|split]]]].
  - rewrite ingest_by_role. reflexivity.
  - intros Hno user_msg assistant_msg. rewrite ingest_by_role.
    unfold ConversationIngestor.ingest_role. fold table.
    destruct (Db.tables db !! table) as [[| |dim rows last]|] eqn:Ht;
      try (destruct user_msg, assistant_msg; cbn [Py.truthy_str negb];
           rewrite ?Ht; try reflexivity; apply rolled_back_same).
    now destruct (Hno dim rows last).
  - intros Hkey user_msg assistant_msg. rewrite ingest_by_role.
    unfold ConversationIngestor.ingest_role. fold table. rewrite Hkey.
    cbn [andb].
    destruct user_msg, assistant_msg; cbn [Py.truthy_str negb];
      destruct (Db.tables db !! table) as [[| |dim rows last]|];
      try reflexivity; apply rolled_back_same.
  - intros user_msg assistant_msg Hu. rewrite ingest_by_role.
    unfold ConversationIngestor.ingest_role at 1. fold table.
    rewrite (Hnul _ Hu), Hu, andb_false_r. cbn [negb andb].
    now destruct (Db.tables db !! table) as [[| |dim rows last]|].
  - intros assistant_msg Ha. rewrite ingest_by_role.
    unfold ConversationIngestor.ingest_role. fold table.
    rewrite (Hnul _ Ha), Ha, andb_false_r. cbn [Py.truthy_str negb].
    destruct (Db.tables db !! table) as [[| |dim rows last]|];
      apply rolled_back_same.
  - intros user_msg assistant_msg dim rows last Ht Hkey Hne Hu Ha.
    rewrite ingest_by_role.
    unfold ConversationIngestor.ingest_role. fold table.
    rewrite Hkey, Hu, Ha, (Hnul _ Ha), andb_false_r.
    replace (Db.text_ok "user") with true by reflexivity.
    destruct user_msg as [|c u]; [done|].
    cbn [Py.truthy_str negb andb]. rewrite Ht.
    cbn [Db.tables Db.pgmq_send Db.with_tables].
    rewrite lookup_insert_eq.
    unfold ConversationIngestor.rolled_back.
    cbn [Db.tables Db.queue Db.queue_last_id Db.archive Db.pgmq_send
         Db.with_tables].
    rewrite Ht, lookup_insert_eq. reflexivity.
Qed.

(** * Properties of the memory tools *)


Lemma str_or_nonempty (a b : string) : b ≠ "" → str_or a b ≠ "".
Proof. unfold str_or. now destruct a. Qed.

Lemma append_nonempty (ch : ascii) (a b : string) : String ch a +:+ b ≠ "".
Proof. rewrite append_cons. discriminate. Qed.


(** X21. [read_memory] never answers with the empty string, whatever
    the backend, its state, the scope and the number of days: an empty
    memory is reported by a placeholder, an unknown scope and a failing
    backend by an error text. *)
Theorem read_memory_never_empty {B S : Type} `{!Backend.MemoryBackend B S}
    (str_e : string) (_memory : B) (clk : Db.Clock) (scope : string)
    (days : option Z) (st : S) :
  ReadMemoryTool.execute str_e _memory clk scope days st ≠ "".
Proof.
  unfold ReadMemoryTool.execute.
  destruct (String.eqb scope "today").
  { destruct (Backend.read_today _memory clk st); cbn [mbind option_bind];
      [now apply str_or_nonempty | apply append_nonempty]. }
  destruct (String.eqb scope "long_term").
  { destruct (Backend.read_long_term _memory st); cbn [mbind option_bind];
      [now apply str_or_nonempty | apply append_nonempty]. }
  destruct (String.eqb scope "recent").
  { destruct (Backend.get_recent_memories _memory clk _ st);
      cbn [mbind option_bind];
      [apply str_or_nonempty | ]; apply append_nonempty. }
  apply append_nonempty.
Qed.

(** * Properties of the backend factory *)


(** * Embedding jobs of the long-term table *)

(** [pgmq.read] hides at most one entry for a while: the queue keeps its
    messages and their ids, in order, and the entry returned is one of
    them. *)
Lemma read_first_same_messages vt_secs t q r q' :
  Db.read_first vt_secs t q = (r, q') →
  Db.q_msg_id <$> q' = Db.q_msg_id <$> q ∧
  Db.q_message <$> q' = Db.q_message <$> q ∧
  ∀ e, r = Some e → e ∈ q.
Proof.
  revert r q'. induction q as [|a q IH]; intros r q' H; simpl in H.
  - injection H as <- <-. repeat split. intros e He. discriminate He.
  - destruct (Db.q_vt a <=? t).
    + injection H as <- <-. repeat split.
      intros e He. injection He as <-. constructor.
    + destruct (Db.read_first vt_secs t q) as [r0 q0] eqn:Hr.
      injection H as <- <-.
      destruct (IH _ _ eq_refl) as (Hi & Hm & Hin).
      rewrite !fmap_cons, Hi, Hm. repeat split.
      intros e He. constructor. now apply Hin.
Qed.

(** One poll on a queue that holds only jobs of long-term tables. *)
Lemma poll_once_long_term_jobs {float : Type}
    (aembedding : EmbeddingService.t → list string → option (list (list float)))
    (str_float : float → string) (pgvector_in : string → option Z)
    (worker : MemoryEmbeddingWorker.t) (clk : Db.Clock) (db : Db.Database) :
  Forall (λ m, ∃ dim rows last,
            Db.tables db !! Db.m_table m = Some (Db.LongTerm dim rows last))
    (Db.q_message <$> Db.queue db) →
  let p := MemoryEmbeddingWorker._poll_once aembedding str_float pgvector_in
             worker clk db in
  p.1.1 = false ∧
  Db.tables p.1.2 = Db.tables db ∧
  Db.archive p.1.2 = Db.archive db ∧
  Db.queue_last_id p.1.2 = Db.queue_last_id db ∧
  Db.q_msg_id <$> Db.queue p.1.2 = Db.q_msg_id <$> Db.queue db ∧
  Db.q_message <$> Db.queue p.1.2 = Db.q_message <$> Db.queue db ∧
  ∀ name mid, MemoryEmbeddingWorker.PgmqArchive name mid ∉ p.2.
Proof.
  intros Hjobs p. subst p.
  unfold MemoryEmbeddingWorker._poll_once, Db.pgmq_read.
  destruct (Db.read_first _ _ (Db.queue db)) as [r q'] eqn:Hr.
  destruct (read_first_same_messages _ _ _ _ _ Hr) as (Hi & Hm & Hin).
  assert (Hcalls : ∀ (calls : list MemoryEmbeddingWorker.Call) name mid,
            Forall (λ c, match c with
                         | MemoryEmbeddingWorker.PgmqArchive _ _ => False
                         | _ => True
                         end) calls →
            MemoryEmbeddingWorker.PgmqArchive name mid ∉ calls).
  { intros calls name mid Hall Hc.
    rewrite Forall_forall in Hall. exact (Hall _ Hc). }
  destruct r as [entry|]; cbn [fst snd Db.tables Db.archive Db.queue
                               Db.queue_last_id].
  2:{ repeat split; try assumption.
      intros name mid. apply Hcalls. repeat constructor. }
  destruct (EmbeddingService.embed _ _ _) as [v|];
    cbn [fst snd Db.tables Db.archive Db.queue Db.queue_last_id].
  2:{ repeat split; try assumption.
      intros name mid. apply Hcalls. repeat constructor. }
  assert (Hlt : ∃ dim rows last,
             Db.tables db !! Db.m_table (Db.q_message entry)
             = Some (Db.LongTerm dim rows last)).
  { rewrite Forall_fmap, Forall_forall in Hjobs.
    exact (Hjobs entry (Hin entry eq_refl)). }
  destruct Hlt as (dim & rows & last & Hlt).
  unfold Db.update_embedding. cbn [Db.tables]. rewrite Hlt.
  cbn [fst snd Db.tables Db.archive Db.queue Db.queue_last_id].
  repeat split; try assumption.
  intros name mid. apply Hcalls. repeat constructor.
Qed.

(** X23. The embedding job of a long-term row is never done.  While the
    queue holds only jobs of long-term tables, every poll of the worker
    returns False: the UPDATE names the column [updated_at], which the
    long-term table has not, so it raises and nothing is archived.  After
    any run of the poll loop the tables and the archive are what they
    were, the queue holds the same messages with the same ids, and the
    next poll, whatever the embedding API answers, returns False again
    and archives nothing: a long-term row keeps the embedding NULL. *)
Theorem long_term_jobs_are_never_done {float : Type}
    (str_float : float → string) (pgvector_in : string → option Z)
    (worker : MemoryEmbeddingWorker.t)
    (ticks : list (Db.Clock *
                   (EmbeddingService.t → list string
                    → option (list (list float)))))
    (db : Db.Database) :
  Forall (λ m, ∃ dim rows last,
            Db.tables db !! Db.m_table m = Some (Db.LongTerm dim rows last))
    (Db.q_message <$> Db.queue db) →
  let db' := MemoryEmbeddingWorker._run str_float pgvector_in worker ticks db in
  Db.tables db' = Db.tables db ∧
  Db.archive db' = Db.archive db ∧
  Db.queue_last_id db' = Db.queue_last_id db ∧
  Db.q_msg_id <$> Db.queue db' = Db.q_msg_id <$> Db.queue db ∧
  Db.q_message <$> Db.queue db' = Db.q_message <$> Db.queue db ∧
  ∀ aembedding clk,
    let p := MemoryEmbeddingWorker._poll_once aembedding str_float pgvector_in
               worker clk db' in
    p.1.1 = false ∧ ∀ name mid, MemoryEmbeddingWorker.PgmqArchive name mid ∉ p.2.
Proof.
  intros Hjobs db'.
  assert (Hrun :
    Db.tables db' = Db.tables db ∧
    Db.archive db' = Db.archive db ∧
    Db.queue_last_id db' = Db.queue_last_id db ∧
    Db.q_msg_id <$> Db.queue db' = Db.q_msg_id <$> Db.queue db ∧
    Db.q_message <$> Db.queue db' = Db.q_message <$> Db.queue db).
  { subst db'. revert db Hjobs.
    induction ticks as [|[clk api] ticks IH]; intros db Hjobs; [done|].
    unfold MemoryEmbeddingWorker._run. cbn [fold_left fst snd].
    destruct (poll_once_long_term_jobs api str_float pgvector_in worker clk db
                Hjobs) as (_ & Ht & Ha & Hl & Hi & Hm & _).
    cbv zeta in Ht, Ha, Hl, Hi, Hm.
    rewrite <- Ht, <- Ha, <- Hl, <- Hi, <- Hm.
    apply IH. rewrite Hm.
    eapply Forall_impl; [exact Hjobs|].
    intros m Hm'. cbv beta in *. now rewrite Ht. }
  destruct Hrun as (Ht & Ha & Hl & Hi & Hm).
  repeat split; try assumption.
  - apply poll_once_long_term_jobs. rewrite Hm.
    eapply Forall_impl; [exact Hjobs|].
    intros m Hm'. cbv beta in *. now rewrite Ht.
  - apply poll_once_long_term_jobs. rewrite Hm.
    eapply Forall_impl; [exact Hjobs|].
    intros m Hm'. cbv beta in *. now rewrite Ht.
Qed.

(** ** The properties of the stores, the ingestor and the tools at
    concrete inputs *)


Lemma notes_and_long_term_are_independent_witness :
  let db := PostgresMemoryStore._ensure_schema Examples.store3 Db.empty in
  ∃ db1 db2,
    PostgresMemoryStore.append_today Examples.store3 Examples.clock0
      "likes tea" db = Some db1 ∧
    PostgresMemoryStore.read_long_term Examples.store3 db1
    = PostgresMemoryStore.read_long_term Examples.store3 db ∧
    PostgresMemoryStore.write_long_term Examples.store3 Examples.clock0
      "likes tea" db = Some db2 ∧
    PostgresMemoryStore.read_today Examples.store3 Examples.clock1 db2
    = PostgresMemoryStore.read_today Examples.store3 Examples.clock1 db.
Proof.
  intros db.
  destruct (notes_and_long_term_are_independent "likes tea")
    as (_ & _ & Happend & Hwrite).
  destruct (PostgresMemoryStore.append_today Examples.store3 Examples.clock0
              "likes tea" db) as [db1|] eqn:H1;
    [|vm_compute in H1; discriminate H1].
  destruct (PostgresMemoryStore.write_long_term Examples.store3 Examples.clock0
              "likes tea" db) as [db2|] eqn:H2;
    [|vm_compute in H2; discriminate H2].
  exists db1, db2.
  split; [reflexivity|].
  split; [exact (Happend _ _ _ _ H1)|].
  split; [reflexivity|].
  exact (proj1 (Hwrite _ _ Examples.clock1 7 _ _ H2)).
Defined.


Lemma ingest_stores_nonempty_halves_witness :
  let db := PostgresMemoryStore._ensure_schema Examples.store3 Db.empty in
  let db' :=
    ConversationIngestor.ingest Examples.ingestor3 Examples.clock0 "s1" "hi"
      "hello" db in
  Db.tables db' !! "memory_conversation_dim3"
  = Some (Db.Conversation 3
            [ {| Db.c_id := 1; Db.c_session_key := "s1"; Db.c_role := "user";
                 Db.c_content := "hi"; Db.c_embedding := None |};
              {| Db.c_id := 2; Db.c_session_key := "s1";
                 Db.c_role := "assistant"; Db.c_content := "hello";
                 Db.c_embedding := None |} ] 2) ∧
  Db.q_message <$> Db.queue db'
  = [ {| Db.m_table := "memory_conversation_dim3"; Db.m_id := 1;
         Db.m_content := "user: hi"; Db.m_dimensions := 3 |};
      {| Db.m_table := "memory_conversation_dim3"; Db.m_id := 2;
         Db.m_content := "assistant: hello"; Db.m_dimensions := 3 |} ] ∧
  Db.queue_last_id db' = 2.
Proof.
  intros db db'.
  pose proof (ingest_stores_nonempty_halves Examples.ingestor3 Examples.clock0
                "s1" "hi" "hello" db 3 [] 0) as H.
  cbv zeta in H.
  rewrite !filter_cons_True in H by done.
  destruct H as (_ & Ht & Hq & Hl).
  - vm_compute. reflexivity.
  - reflexivity.
  - reflexivity.
  - reflexivity.
  - fold db' in Ht, Hq, Hl. rewrite Ht, Hq, Hl.
    split; [|split; reflexivity].
    now rewrite lookup_insert_eq.
Defined.

Lemma ingest_failure_stores_nothing_witness :
  let db := PostgresMemoryStore._ensure_schema Examples.store3 Db.empty in
  ConversationIngestor.ingest Examples.ingestor3 Examples.clock0 "s1" "hi"
    "hello" Db.empty = Db.empty ∧
  ConversationIngestor.ingest Examples.ingestor3 Examples.clock0 "s1" "hi"
    (String Py.NUL "") db
  = {| Db.tables :=
         <["memory_conversation_dim3" := Db.Conversation 3 [] 1]> (Db.tables db);
       Db.queue := [];
       Db.queue_last_id := 1;
       Db.archive := [] |}.
Proof.
  intros db.
  destruct (ingest_failure_stores_nothing Examples.ingestor3 Examples.clock0
              "s1" Db.empty) as (_ & Hmissing & _).
  destruct (ingest_failure_stores_nothing Examples.ingestor3 Examples.clock0
              "s1" db) as (_ & _ & _ & _ & _ & Hrolled).
  split.
  - apply Hmissing. intros dim rows last H. vm_compute in H. discriminate H.
  - apply (Hrolled "hi" (String Py.NUL "") 3 [] 0).
    + vm_compute. reflexivity.
    + reflexivity.
    + discriminate.
    + reflexivity.
    + reflexivity.
Defined.



Lemma long_term_jobs_are_never_done_witness :
  let db := Examples.db_fact Examples.store3 in
  let db' :=
    MemoryEmbeddingWorker._run pretty Examples.pgvector_in Examples.worker3
      [(Examples.clock1, Examples.api_up); (Examples.clock1, Examples.api_up)]
      db in
  Db.q_message <$> Db.queue db
  = [ {| Db.m_table := "memory_long_term_dim3"; Db.m_id := 1;
         Db.m_content := "likes tea"; Db.m_dimensions := 3 |} ] ∧
  Db.tables db' !! "memory_long_term_dim3"
  = Some (Db.LongTerm 3
            [ {| Db.lt_id := 1; Db.lt_content := "likes tea";
                 Db.lt_embedding := None; Db.lt_version := 1 |} ] 1) ∧
  Db.q_message <$> Db.queue db' = Db.q_message <$> Db.queue db ∧
  (MemoryEmbeddingWorker._poll_once Examples.api_up pretty Examples.pgvector_in
     Examples.worker3 Examples.clock1 db').1.1 = false.
Proof.
  intros db db'.
  assert (Hq : Db.q_message <$> Db.queue db
               = [ {| Db.m_table := "memory_long_term_dim3"; Db.m_id := 1;
                      Db.m_content := "likes tea"; Db.m_dimensions := 3 |} ])
    by (vm_compute; reflexivity).
  destruct (long_term_jobs_are_never_done pretty Examples.pgvector_in
              Examples.worker3
              [(Examples.clock1, Examples.api_up);
               (Examples.clock1, Examples.api_up)] db)
    as (Ht & _ & _ & _ & Hm & Hpoll).
  - rewrite Hq. repeat constructor.
    exists 3, [ {| Db.lt_id := 1; Db.lt_content := "likes tea";
                   Db.lt_embedding := None; Db.lt_version := 1 |} ], 1.
    vm_compute. reflexivity.
  - fold db' in Ht, Hm, Hpoll.
    split; [exact Hq|]. split; [rewrite Ht; vm_compute; reflexivity|].
    split; [exact Hm|].
    exact (proj1 (Hpoll Examples.api_up Examples.clock1)).
Defined.

(** * Session keys *)

(** A text without colon, before a colon, is determined by the whole. *)
Lemma append_colon_inj (a1 a2 b1 b2 : string) :
  Py.has_char ":" a1 = false →
  Py.has_char ":" a2 = false →
  a1 +:+ String ":" b1 = a2 +:+ String ":" b2 →
  a1 = a2 ∧ b1 = b2.
Proof.
  revert a2. induction a1 as [|c1 a1 IH]; intros [|c2 a2] H1 H2 H.
  - injection H as <-. now split.
  - rewrite append_cons in H. injection H as <- _.
    cbn in H2. discriminate H2.
  - rewrite append_cons in H. injection H as -> _.
    cbn in H1. discriminate H1.
  - rewrite !append_cons in H. injection H as <- H.
    cbn [Py.has_char] in H1, H2.
    apply orb_false_iff in H1 as [_ H1]. apply orb_false_iff in H2 as [_ H2].
    destruct (IH a2 H1 H2 H) as [<- <-]. now split.
Qed.

(** X24. The session key [channel:chat_id] tells sessions apart as long
    as channel names hold no colon: two inbound messages whose channels
    hold none have the same session key exactly when they come from the
    same channel and the same chat.  Without that, two different chats
    can share a session key. *)
Theorem session_key_identifies_chat :
  (∀ m1 m2 : InboundMessage,
     Py.has_char ":" (in_channel m1) = false →
     Py.has_char ":" (in_channel m2) = false →
     (session_key m1 = session_key m2
      ↔ in_channel m1 = in_channel m2 ∧ in_chat_id m1 = in_chat_id m2)) ∧
  (∃ m1 m2 : InboundMessage,
     session_key m1 = session_key m2 ∧
     in_channel m1 ≠ in_channel m2 ∧ in_chat_id m1 ≠ in_chat_id m2).
Proof.
  split.
  - intros m1 m2 H1 H2. unfold session_key. split.
    + intros H. now apply append_colon_inj.
    + now intros [-> ->].
  - exists {| in_channel := "team:7"; in_sender_id := "u1"; in_chat_id := "42";
              in_content := "hi"; wants_stream := false |},
           {| in_channel := "team"; in_sender_id := "u1"; in_chat_id := "7:42";
              in_content := "hi"; wants_stream := false |}.
    repeat split; discriminate.
Qed.

Lemma session_key_identifies_chat_witness :
  let m chat :=
    {| in_channel := "openapi"; in_sender_id := "u1"; in_chat_id := chat;
       in_content := "ping"; wants_stream := false |} in
  session_key (m "42") = "openapi:42" ∧
  ∀ chat1 chat2, session_key (m chat1) = session_key (m chat2) → chat1 = chat2.
Proof.
  intros m. split; [reflexivity|].
  intros chat1 chat2 H.
  destruct session_key_identifies_chat as [Hkey _].
  exact (proj2 (proj1 (Hkey (m chat1) (m chat2) eq_refl eq_refl) H)).
Defined.
